(** * Customer Support Ticket Quality Audit: a shallow embedding of [main.py]

    The program loads a table of support tickets, removes duplicate rows,
    cleans the text columns, fills missing values, classifies every ticket by
    keyword rules, flags low-quality tickets and summarises the result.

    Modelling choices.
    - Text is a [string] of 8-bit characters; the character tests and case
      mappings below are the ones Python applies on the ASCII range.  On text
      whose characters are all ASCII ([plain] below) a [string] is the Python
      [str], its length is [len], and [lower], [title], [strip] and [isupper]
      are Python's; the model says nothing faithful about other text, so every
      statement that depends on the letters, the spaces or the length of a
      text carries [plain] as a hypothesis.
    - A pandas cell that may be missing is a [cell]: [NaN] or [Str s].
    - [resolution_time_hours] is a float column; it is modelled by exact
      rationals extended with a missing value ([None] is NaN).  Rounding
      and integer wrap-around are outside the model, so the theorems on the
      imputed median and on the summary state which values are present and
      which entries are numbers, not the value of a sum or of a quotient.
    - A DataFrame is the list of its rows in order, each paired with its
      index label.  [df.loc[i, col]] looks a row up by LABEL, and fails with
      [KeyError] when no row carries that label.
    - Python exceptions are the [Err] results of a small error monad.
    - pandas behaves as in its versions 1 and 2: [astype(str)] writes a
      missing cell as the text "nan", and an in-place operation on a column
      of a frame changes the frame. *)

From Stdlib Require Import Bool List Arith Lia ZArith QArith Ascii String.
From Stdlib Require Import Permutation Sorted.
Import ListNotations.
Local Open Scope string_scope.
Local Open Scope nat_scope.

(** ** Python [str] operations *)

Definition code (c : ascii) : nat := nat_of_ascii c.

(** [c.isupper()] and [c.islower()] for one character. *)
Definition char_isupper (c : ascii) : bool := (65 <=? code c) && (code c <=? 90).
Definition char_islower (c : ascii) : bool := (97 <=? code c) && (code c <=? 122).
Definition char_iscased (c : ascii) : bool := char_isupper c || char_islower c.

(** [c.isspace()]: tab, line feed, vertical tab, form feed, carriage return,
    the four separators 0x1c-0x1f and the space. *)
Definition char_isspace (c : ascii) : bool :=
  ((9 <=? code c) && (code c <=? 13)) || ((28 <=? code c) && (code c <=? 32)).

Definition char_lower (c : ascii) : ascii :=
  if char_isupper c then ascii_of_nat (code c + 32) else c.
Definition char_upper (c : ascii) : ascii :=
  if char_islower c then ascii_of_nat (code c - 32) else c.

(** [s.lower()] *)
Fixpoint lower (s : string) : string :=
  match s with
  | EmptyString => EmptyString
  | String c s' => String (char_lower c) (lower s')
  end.

(** [s.title()]: a cased character that follows a cased character is
    lowercased, any other cased character is uppercased. *)
Fixpoint title_from (previous_is_cased : bool) (s : string) : string :=
  match s with
  | EmptyString => EmptyString
  | String c s' =>
      String (if previous_is_cased then char_lower c else char_upper c)
             (title_from (char_iscased c) s')
  end.
Definition title (s : string) : string := title_from false s.

(** [s.strip()] removes leading and trailing whitespace. *)
Fixpoint lstrip (s : string) : string :=
  match s with
  | EmptyString => EmptyString
  | String c s' => if char_isspace c then lstrip s' else s
  end.

Fixpoint rstrip (s : string) : string :=
  match s with
  | EmptyString => EmptyString
  | String c s' =>
      match rstrip s' with
      | EmptyString => if char_isspace c then EmptyString else String c EmptyString
      | r => String c r
      end
  end.

Definition strip (s : string) : string := rstrip (lstrip s).

(** [t.startswith(w)] *)
Fixpoint startswith (w t : string) : bool :=
  match w, t with
  | EmptyString, _ => true
  | String _ _, EmptyString => false
  | String a w', String b t' => Ascii.eqb a b && startswith w' t'
  end.

(** [w in t]: [w] occurs in [t] at some position. *)
Fixpoint str_in (w t : string) : bool :=
  startswith w t ||
  match t with
  | EmptyString => false
  | String _ t' => str_in w t'
  end.

(** [s.isupper()]: scan the string; a lowercase character answers [False] at
    once, an uppercase one sets [cased]; the answer at the end is [cased]. *)
Fixpoint isupper_from (cased : bool) (s : string) : bool :=
  match s with
  | EmptyString => cased
  | String c s' =>
      if char_islower c then false
      else isupper_from (cased || char_isupper c) s'
  end.
Definition isupper (s : string) : bool := isupper_from false s.

(** ** The classifier's row rule (the body of the loop of [classify_issues]) *)

Definition billing_words : list string := ["refund"; "charge"; "invoice"; "payment"].
Definition technical_words : list string := ["error"; "bug"; "crash"; "login"; "failed"].
Definition account_words : list string := ["password"; "email"; "account"; "verify"].
Definition delivery_words : list string := ["delivery"; "shipping"; "late"; "tracking"].

(** [for word in words: if word in text: ...; break].  The source iterates
    over a set, whose order Python does not fix; [words] is one iteration
    order, and [any_word_in_perm] below shows that the order is immaterial. *)
Fixpoint any_word_in (words : list string) (text : string) : bool :=
  match words with
  | [] => false
  | word :: rest => if str_in word text then true else any_word_in rest text
  end.

(** The four guarded scans, for arbitrary keyword collections. *)
Definition classify_with (bw tw aw dw : list string) (text : string) : string :=
  let issue := "Other" in
  let issue := if any_word_in bw text then "Billing" else issue in
  let issue :=
    if (issue =? "Other")%string
    then (if any_word_in tw text then "Technical" else issue) else issue in
  let issue :=
    if (issue =? "Other")%string
    then (if any_word_in aw text then "Account" else issue) else issue in
  let issue :=
    if (issue =? "Other")%string
    then (if any_word_in dw text then "Delivery" else issue) else issue in
  issue.

Definition classify_text (text : string) : string :=
  classify_with billing_words technical_words account_words delivery_words text.

(** ** The flagger's row rule (the body of the loop of [flag_tickets]) *)

Definition flag_message (message : string) : bool * string :=
  if String.length message <? 20 then (true, "Message too short")
  else if isupper message then (true, "Message in all caps")
  else if str_in "!!!" message || str_in "???" message
       then (true, "Excessive punctuation")
  else (false, "").

(** ** Cells, tickets and data frames *)

(** A cell of a text column: a missing value or a string. *)
Inductive cell : Type :=
| NaN : cell
| Str : string -> cell.

(** A float: [None] is NaN. *)
Definition number : Type := option Q.

(** The [created_date] column holds the text that was read until
    [clean_dates] replaces it by a timestamp ([None] is NaT). *)
Inductive date : Type :=
| DateText : cell -> date
| Timestamp : option Z -> date.

(** One row.  The three derived columns are absent ([None]) until the stage
    that writes them has run. *)
Record Ticket : Type := mkTicket {
  priority : cell;
  status : cell;
  subject : cell;
  message : cell;
  resolution_time_hours : number;
  created_date : date;
  issue_type : option string;
  is_flagged : option bool;
  flag_reason : option string
}.

(** A DataFrame: the rows in order, each with its index label. *)
Definition Frame : Type := list (nat * Ticket).

Inductive error : Type :=
| KeyError : error
| TypeError : error.

Inductive result (A : Type) : Type :=
| Ok : A -> result A
| Err : error -> result A.
Arguments Ok {A} _.
Arguments Err {A} _.

Definition bind {A B : Type} (m : result A) (k : A -> result B) : result B :=
  match m with
  | Ok a => k a
  | Err e => Err e
  end.

Notation "x <- m ;; k" := (bind m (fun x => k))
  (at level 61, m at next level, right associativity).

Definition fmap {A B : Type} (f : A -> B) (m : result A) : result B :=
  x <- m ;; Ok (f x).

(** [range(n)] *)
Definition range (n : nat) : list nat := seq 0 n.

(** [len(df)] *)
Definition len (df : Frame) : nat := List.length df.

(** The index and one column of a frame. *)
Definition index (df : Frame) : list nat := map fst df.
Definition column {A : Type} (col : Ticket -> A) (df : Frame) : list A :=
  map (fun p => col (snd p)) df.

(** [df.loc[i, col]]: the cell of column [col] in the row labelled [i]. *)
Fixpoint loc {A : Type} (df : Frame) (i : nat) (col : Ticket -> A) : result A :=
  match df with
  | [] => Err KeyError
  | (label, row) :: rest => if label =? i then Ok (col row) else loc rest i col
  end.

(** Reading a derived column that the frame does not have is a [KeyError]. *)
Definition present {A : Type} (v : option A) : result A :=
  match v with
  | Some a => Ok a
  | None => Err KeyError
  end.

(** The operand of a string [+]: a float there raises [TypeError]. *)
Definition as_text (c : cell) : result string :=
  match c with
  | Str s => Ok s
  | NaN => Err TypeError
  end.

(** [str(v)] and [Series.astype(str)] on one cell. *)
Definition str (c : cell) : string :=
  match c with
  | Str s => s
  | NaN => "nan"
  end.

(** [Series.fillna(v)] on one cell. *)
Definition fillna (v : string) (c : cell) : cell :=
  match c with
  | NaN => Str v
  | Str s => Str s
  end.

(** [read_csv] numbers the rows it read 0, 1, 2, ... *)
Definition load_data (rows : list Ticket) : Frame :=
  combine (range (List.length rows)) rows.

(** ** Equality of rows, as [drop_duplicates] sees it (NaN equals NaN) *)

Definition cell_eqb (a b : cell) : bool :=
  match a, b with
  | NaN, NaN => true
  | Str x, Str y => String.eqb x y
  | _, _ => false
  end.

Definition option_eqb {A : Type} (eqb : A -> A -> bool) (a b : option A) : bool :=
  match a, b with
  | None, None => true
  | Some x, Some y => eqb x y
  | _, _ => false
  end.

Definition number_eqb : number -> number -> bool := option_eqb Qeq_bool.

Definition date_eqb (a b : date) : bool :=
  match a, b with
  | DateText x, DateText y => cell_eqb x y
  | Timestamp x, Timestamp y => option_eqb Z.eqb x y
  | _, _ => false
  end.

Definition ticket_eqb (a b : Ticket) : bool :=
  cell_eqb (priority a) (priority b) &&
  cell_eqb (status a) (status b) &&
  cell_eqb (subject a) (subject b) &&
  cell_eqb (message a) (message b) &&
  number_eqb (resolution_time_hours a) (resolution_time_hours b) &&
  date_eqb (created_date a) (created_date b) &&
  option_eqb String.eqb (issue_type a) (issue_type b) &&
  option_eqb Bool.eqb (is_flagged a) (is_flagged b) &&
  option_eqb String.eqb (flag_reason a) (flag_reason b).

(** ** Stage 2: [remove_duplicates] *)

(** [df.drop_duplicates(inplace=True)]: a row equal to an earlier row is
    dropped; the rows that stay keep their index labels. *)
Fixpoint drop_duplicates_from (seen : list Ticket) (df : Frame) : Frame :=
  match df with
  | [] => []
  | (label, row) :: rest =>
      if existsb (ticket_eqb row) seen
      then drop_duplicates_from seen rest
      else (label, row) :: drop_duplicates_from (row :: seen) rest
  end.

Definition drop_duplicates (df : Frame) : Frame := drop_duplicates_from [] df.

Definition remove_duplicates (df : Frame) : Frame := drop_duplicates df.

(** ** Stage 3: [clean_text_columns] *)

Definition update_rows (f : Ticket -> Ticket) (df : Frame) : Frame :=
  map (fun p => (fst p, f (snd p))) df.

Definition clean_text_row (r : Ticket) : Ticket :=
  mkTicket (Str (title (strip (str (priority r)))))
           (Str (title (strip (str (status r)))))
           (Str (strip (str (subject r))))
           (Str (strip (str (message r))))
           (resolution_time_hours r) (created_date r)
           (issue_type r) (is_flagged r) (flag_reason r).

Definition clean_text_columns (df : Frame) : Frame := update_rows clean_text_row df.

(** ** Stage 4: [handle_missing_values] *)

Fixpoint insert_sorted (x : Q) (l : list Q) : list Q :=
  match l with
  | [] => [x]
  | y :: rest => if Qle_bool x y then x :: l else y :: insert_sorted x rest
  end.

Definition sort_values (l : list Q) : list Q := fold_right insert_sorted [] l.

Fixpoint dropna (l : list number) : list Q :=
  match l with
  | [] => []
  | Some q :: rest => q :: dropna rest
  | None :: rest => dropna rest
  end.

(** [Series.median()]: the middle of the sorted values that are not NaN, the
    mean of the two middle ones when their number is even, NaN when there is
    none. *)
Definition median (l : list number) : number :=
  let values := sort_values (dropna l) in
  let n := List.length values in
  if n =? 0 then None
  else if Nat.odd n then Some (nth (n / 2) values 0%Q)
  else Some (Qdiv (Qplus (nth (n / 2 - 1) values 0%Q) (nth (n / 2) values 0%Q))
                  (inject_Z 2)).

Definition fillna_number (v : number) (x : number) : number :=
  match x with
  | None => v
  | Some q => Some q
  end.

Definition handle_missing_row (median_time : number) (r : Ticket) : Ticket :=
  mkTicket (fillna "Low" (priority r))
           (fillna "Open" (status r))
           (subject r) (message r)
           (fillna_number median_time (resolution_time_hours r))
           (created_date r)
           (issue_type r) (is_flagged r) (flag_reason r).

Definition handle_missing_values (df : Frame) : Frame :=
  let median_time := median (column resolution_time_hours df) in
  update_rows (handle_missing_row median_time) df.

(** ** Stage 6: [classify_issues] *)

(** One turn of the loop: the text of the row LABELLED [i]. *)
Definition issue_of_row (df : Frame) (i : nat) : result string :=
  s <- loc df i subject ;;
  s <- as_text s ;;
  m <- loc df i message ;;
  m <- as_text m ;;
  let text := s ++ " " ++ m in
  let text := lower text in
  Ok (classify_text text).

(** [for i in range(len(df)): ...; issue_types.append(issue)] *)
Fixpoint classify_loop (df : Frame) (idx : list nat) : result (list string) :=
  match idx with
  | [] => Ok []
  | i :: rest =>
      issue <- issue_of_row df i ;;
      issue_types <- classify_loop df rest ;;
      Ok (issue :: issue_types)
  end.

Definition set_issue_type (r : Ticket) (issue : string) : Ticket :=
  mkTicket (priority r) (status r) (subject r) (message r)
           (resolution_time_hours r) (created_date r)
           (Some issue) (is_flagged r) (flag_reason r).

(** [df[col] = values]: the list is written by POSITION. *)
Definition assign {A : Type} (set : Ticket -> A -> Ticket) (df : Frame)
    (values : list A) : Frame :=
  map (fun pv => (fst (fst pv), set (snd (fst pv)) (snd pv))) (combine df values).

Definition classify_issues (df : Frame) : result Frame :=
  issue_types <- classify_loop df (range (len df)) ;;
  Ok (assign set_issue_type df issue_types).

(** ** Stage 7: [flag_tickets] *)

Definition flag_of_row (df : Frame) (i : nat) : result (bool * string) :=
  m <- loc df i message ;;
  let message := str m in
  Ok (flag_message message).

Fixpoint flag_loop (df : Frame) (idx : list nat) : result (list (bool * string)) :=
  match idx with
  | [] => Ok []
  | i :: rest =>
      fr <- flag_of_row df i ;;
      frs <- flag_loop df rest ;;
      Ok (fr :: frs)
  end.

Definition set_flag (r : Ticket) (fr : bool * string) : Ticket :=
  mkTicket (priority r) (status r) (subject r) (message r)
           (resolution_time_hours r) (created_date r)
           (issue_type r) (Some (fst fr)) (Some (snd fr)).

Definition flag_tickets (df : Frame) : result Frame :=
  frs <- flag_loop df (range (len df)) ;;
  Ok (assign set_flag df frs).

(** ** Stage 8: [create_summary] *)

(** The values the summary holds: Python ints, floats and strings. *)
Inductive value : Type :=
| VInt : Z -> value
| VFloat : number -> value
| VStr : string -> value.

(** A Python dict with string keys, in insertion order. *)
Definition dict (V : Type) : Type := list (string * V).

Fixpoint dict_get {V : Type} (d : dict V) (key : string) : option V :=
  match d with
  | [] => None
  | (k, v) :: rest => if String.eqb k key then Some v else dict_get rest key
  end.

(** [d[key] = v]: overwrite the entry of [key], or add one at the end. *)
Fixpoint dict_set {V : Type} (d : dict V) (key : string) (v : V) : dict V :=
  match d with
  | [] => [(key, v)]
  | (k, w) :: rest =>
      if String.eqb k key then (k, v) :: rest else (k, w) :: dict_set rest key v
  end.

(** Float arithmetic; NaN absorbs. *)
Definition fadd (a b : number) : number :=
  match a, b with
  | Some x, Some y => Some (Qplus x y)
  | _, _ => None
  end.

Definition of_nat (n : nat) : Q := inject_Z (Z.of_nat n).

(** [a / n] for a positive count [n]. *)
Definition fdiv (a : number) (n : nat) : number :=
  match a with
  | Some x => Some (Qdiv x (of_nat n))
  | None => None
  end.

(** [Series.mean()]: the mean of the values that are not NaN. *)
Definition series_mean (l : list number) : number :=
  let values := dropna l in
  if List.length values =? 0 then None
  else Some (Qdiv (fold_left Qplus values 0%Q) (of_nat (List.length values))).

(** First loop: count the flagged rows. *)
Fixpoint count_flagged_loop (df : Frame) (idx : list nat) (flagged_count : nat)
    : result nat :=
  match idx with
  | [] => Ok flagged_count
  | i :: rest =>
      f <- loc df i is_flagged ;;
      f <- present f ;;
      count_flagged_loop df rest
        (if Bool.eqb f true then flagged_count + 1 else flagged_count)
  end.

(** Second loop: two sums and two counters. *)
Record sums : Type := mkSums {
  flagged_sum : number;
  flagged_n : nat;
  not_flagged_sum : number;
  not_flagged_n : nat
}.

Fixpoint resolution_loop (df : Frame) (idx : list nat) (acc : sums) : result sums :=
  match idx with
  | [] => Ok acc
  | i :: rest =>
      time_val <- loc df i resolution_time_hours ;;
      f <- loc df i is_flagged ;;
      f <- present f ;;
      resolution_loop df rest
        (if Bool.eqb f true
         then mkSums (fadd (flagged_sum acc) time_val) (flagged_n acc + 1)
                     (not_flagged_sum acc) (not_flagged_n acc)
         else mkSums (flagged_sum acc) (flagged_n acc)
                     (fadd (not_flagged_sum acc) time_val) (not_flagged_n acc + 1))
  end.

(** Third loop: tickets per issue type. *)
Fixpoint issue_count_loop (df : Frame) (idx : list nat) (issue_counts : dict Z)
    : result (dict Z) :=
  match idx with
  | [] => Ok issue_counts
  | i :: rest =>
      issue <- loc df i issue_type ;;
      issue <- present issue ;;
      issue_count_loop df rest
        (match dict_get issue_counts issue with
         | Some n => dict_set issue_counts issue (n + 1)%Z
         | None => dict_set issue_counts issue 1%Z
         end)
  end.

(** [for issue in issue_counts: summary["issue_count_" + str(issue)] = ...] *)
Fixpoint add_issue_counts (summary : dict value) (issue_counts : dict Z) : dict value :=
  match issue_counts with
  | [] => summary
  | (issue, n) :: rest =>
      add_issue_counts (dict_set summary ("issue_count_" ++ issue) (VInt n)) rest
  end.

Definition create_summary (df : Frame) : result (dict value) :=
  let summary := [] in
  let total_tickets := len df in
  let summary := dict_set summary "total_tickets" (VInt (Z.of_nat total_tickets)) in
  flagged_count <- count_flagged_loop df (range (len df)) 0 ;;
  let summary := dict_set summary "flagged_tickets" (VInt (Z.of_nat flagged_count)) in
  let summary :=
    if 0 <? total_tickets
    then dict_set summary "flagged_percent"
           (VFloat (Some (Qmult (Qdiv (of_nat flagged_count) (of_nat total_tickets))
                                (inject_Z 100))))
    else dict_set summary "flagged_percent" (VInt 0) in
  let summary :=
    dict_set summary "average_resolution_time_hours"
      (VFloat (series_mean (column resolution_time_hours df))) in
  acc <- resolution_loop df (range (len df)) (mkSums (Some 0%Q) 0 (Some 0%Q) 0) ;;
  let summary :=
    if 0 <? flagged_n acc
    then dict_set summary "avg_resolution_flagged_hours"
           (VFloat (fdiv (flagged_sum acc) (flagged_n acc)))
    else dict_set summary "avg_resolution_flagged_hours" (VStr "N/A") in
  let summary :=
    if 0 <? not_flagged_n acc
    then dict_set summary "avg_resolution_not_flagged_hours"
           (VFloat (fdiv (not_flagged_sum acc) (not_flagged_n acc)))
    else dict_set summary "avg_resolution_not_flagged_hours" (VStr "N/A") in
  issue_counts <- issue_count_loop df (range (len df)) [] ;;
  Ok (add_issue_counts summary issue_counts).

(** ** Stage 5 and the whole program *)

Section Program.

(** [pd.to_datetime(v, errors="coerce")] on one cell: the timestamp read
    from the text, [None] (NaT) when the text is not a date.  The parser is
    pandas's own and is left abstract. *)
Variable to_datetime : cell -> option Z.

Definition clean_date_row (r : Ticket) : Ticket :=
  mkTicket (priority r) (status r) (subject r) (message r)
           (resolution_time_hours r)
           (match created_date r with
            | DateText c => Timestamp (to_datetime c)
            | Timestamp t => Timestamp t
            end)
           (issue_type r) (is_flagged r) (flag_reason r).

Definition clean_dates (df : Frame) : Frame := update_rows clean_date_row df.

(** The stages of [main] up to the classifier. *)
Definition cleaning (rows : list Ticket) : Frame :=
  let df := load_data rows in
  let df := remove_duplicates df in
  let df := clean_text_columns df in
  let df := handle_missing_values df in
  let df := clean_dates df in
  df.

(** [main] without its file output: the labelled frame and the summary. *)
Definition main (rows : list Ticket) : result (Frame * dict value) :=
  let df := cleaning rows in
  df <- classify_issues df ;;
  df <- flag_tickets df ;;
  summary <- create_summary df ;;
  Ok (df, summary).

End Program.

(** [classify_issues] followed by [flag_tickets], as [main] chains them. *)
Definition classify_and_flag (df : Frame) : result Frame :=
  df <- classify_issues df ;;
  flag_tickets df.

(** ** The vocabulary of the specification *)

(** [w] is a contiguous substring of [text]; nothing is asked of the
    characters around it. *)
Definition occurs_in (w text : string) : Prop :=
  exists pre suf, text = pre ++ w ++ suf.

(** Some keyword of the collection is a substring of [text]. *)
Definition any_occurs (words : list string) (text : string) : Prop :=
  exists w, In w words /\ occurs_in w text.

(** The label of the first category, in the order Billing, Technical,
    Account, Delivery, one of whose keywords occurs in [text]. *)
Inductive first_match (text : string) : string -> Prop :=
| first_billing :
    any_occurs billing_words text -> first_match text "Billing"
| first_technical :
    ~ any_occurs billing_words text ->
    any_occurs technical_words text -> first_match text "Technical"
| first_account :
    ~ any_occurs billing_words text ->
    ~ any_occurs technical_words text ->
    any_occurs account_words text -> first_match text "Account"
| first_delivery :
    ~ any_occurs billing_words text ->
    ~ any_occurs technical_words text ->
    ~ any_occurs account_words text ->
    any_occurs delivery_words text -> first_match text "Delivery".


Definition all_keywords : list string :=
  billing_words ++ technical_words ++ account_words ++ delivery_words.


Definition chars (s : string) : list ascii := list_ascii_of_string s.




Definition flag_reasons : list string :=
  ["Message too short"; "Message in all caps"; "Excessive punctuation"; ""].

(** The text the classifier matches on. *)
Definition row_text (r : Ticket) : string :=
  lower (str (subject r) ++ " " ++ str (message r)).

(** The frame carries the index [read_csv] gave it: 0, 1, ..., n-1. *)
Definition RangeIndex (df : Frame) : Prop := index df = range (len df).

Definition is_text (c : cell) : Prop := exists s, c = Str s.

(** Subject and message of every row are strings, as after cleaning. *)
Definition text_columns (df : Frame) : Prop :=
  Forall (fun p => is_text (subject (snd p)) /\ is_text (message (snd p))) df.

Definition is_trimmed (c : cell) : Prop := exists s, c = Str s /\ strip s = s.

(** Subject and message of every row are already trimmed strings. *)
Definition trimmed_columns (df : Frame) : Prop :=
  Forall (fun p => is_trimmed (subject (snd p)) /\ is_trimmed (message (snd p))) df.

(** The three assignments of every row, in row order. *)
Definition assignments (df : Frame) : list (option string * option bool * option string) :=
  map (fun p => (issue_type (snd p), is_flagged (snd p), flag_reason (snd p))) df.

(** The derived columns the summary reads are there. *)
Definition labelled (df : Frame) : Prop :=
  Forall (fun p => (exists f, is_flagged (snd p) = Some f) /\
                   (exists l, issue_type (snd p) = Some l)) df.

(** The resolution times of the rows whose flag is [flagged], in row order. *)
Definition subset_times (flagged : bool) (df : Frame) : list number :=
  map (fun p => resolution_time_hours (snd p))
      (filter (fun p => option_eqb Bool.eqb (is_flagged (snd p)) (Some flagged)) df).

(** The arithmetic mean of a subset, or the sentinel when it is empty. *)
Definition mean_or_sentinel (times : list number) : value :=
  match times with
  | [] => VStr "N/A"
  | _ => VFloat (fdiv (fold_left fadd times (Some 0%Q)) (List.length times))
  end.

(** ** Sample tickets *)

Definition ticket (p st sub msg : cell) (hours : number) : Ticket :=
  mkTicket p st sub msg hours (DateText (Str "2024-01-05")) None None None.

Definition refund_ticket : Ticket :=
  ticket (Str "high") (Str "open") (Str "Money back")
         (Str "Please refund my payment, this is a SCAM!!!") (Some (inject_Z 4)).

Definition bug_ticket : Ticket :=
  ticket (Str "low") (Str "closed") (Str "") (Str "bug") (Some (inject_Z 2)).

Definition digits_ticket : Ticket :=
  ticket (Str "low") (Str "open") (Str "Order") (Str "12345678901234567890") None.

Definition late_ticket : Ticket :=
  ticket (Str "medium") (Str "open") (Str "Where is it")
         (Str "My parcel shows lateness on the site") (Some (inject_Z 9)).

(** A ticket whose priority and status cells are empty in the file. *)
Definition blank_ticket : Ticket :=
  ticket NaN NaN (Str "Hello") (Str "I would like to ask a question") (Some (inject_Z 1)).

Definition sample_frame : Frame :=
  load_data [refund_ticket; bug_ticket; digits_ticket; late_ticket].

Definition other_frame : Frame :=
  load_data [late_ticket; bug_ticket; refund_ticket].

(** The sample frame once classified and flagged. *)
Definition labelled_sample : Frame :=
  match classify_and_flag sample_frame with
  | Ok out => out
  | Err _ => []
  end.

(** A file whose second line repeats the first. *)
Definition repeated_rows : list Ticket := [refund_ticket; refund_ticket; bug_ticket].

(** ** Stage 10: [export_files] *)

(** [for i in range(len(df)): if df.loc[i, "is_flagged"] == True:
    flagged_rows.append(i)] *)
Fixpoint flagged_rows_loop (df : Frame) (idx : list nat) : result (list nat) :=
  match idx with
  | [] => Ok []
  | i :: rest =>
      f <- loc df i is_flagged ;;
      f <- present f ;;
      flagged_rows <- flagged_rows_loop df rest ;;
      Ok (if Bool.eqb f true then i :: flagged_rows else flagged_rows)
  end.

(** [df.loc[labels]]: the rows that carry the labels, in the order of the
    labels; a label no row carries is a [KeyError]. *)
Fixpoint loc_rows (df : Frame) (labels : list nat) : result Frame :=
  match labels with
  | [] => Ok []
  | l :: rest =>
      row <- loc df l (fun r => r) ;;
      rows <- loc_rows df rest ;;
      Ok ((l, row) :: rows)
  end.

(** The two frames [export_files] hands to [to_csv]: the whole frame and the
    flagged rows. *)
Definition export_files (df : Frame) : result (Frame * Frame) :=
  flagged_rows <- flagged_rows_loop df (range (len df)) ;;
  flagged_df <- loc_rows df flagged_rows ;;
  Ok (df, flagged_df).

(** ** Further vocabulary *)

(** No row equals an earlier row. *)
Definition distinct_rows (df : Frame) : Prop :=
  ForallOrdPairs (fun p q => ticket_eqb (snd q) (snd p) = false) df.

(** Every character of the string is whitespace. *)
Definition all_space (s : string) : Prop :=
  forall c, In c (chars s) -> char_isspace c = true.

(** The string neither starts nor ends with whitespace. *)
Definition no_outer_space (s : string) : Prop :=
  (forall c r, s = String c r -> char_isspace c = false) /\
  (forall pre c, s = pre ++ String c "" -> char_isspace c = false).

(** The rows the flagger marked [flagged]. *)
Definition flagged_subset (flagged : bool) (df : Frame) : Frame :=
  filter (fun p => option_eqb Bool.eqb (is_flagged (snd p)) (Some flagged)) df.

(** The number of rows whose [issue_type] is [label]. *)
Definition count_issue (label : string) (df : Frame) : nat :=
  List.length
    (filter (fun p => option_eqb String.eqb (issue_type (snd p)) (Some label)) df).

(** The distinct strings of a list, each at its first occurrence. *)
Fixpoint first_seen_from (seen : list string) (l : list string) : list string :=
  match l with
  | [] => []
  | x :: rest =>
      if existsb (String.eqb x) seen then first_seen_from seen rest
      else x :: first_seen_from (seen ++ [x]) rest
  end.
Definition first_seen (l : list string) : list string := first_seen_from [] l.

(** The issue types of a labelled frame, in row order. *)
Fixpoint issues_of (df : Frame) : list string :=
  match df with
  | [] => []
  | p :: rest =>
      match issue_type (snd p) with
      | Some l => l :: issues_of rest
      | None => issues_of rest
      end
  end.

(** The count a dict of counters holds for a key, and the count after [k]
    more occurrences of that key. *)
Definition counted (o : option Z) (k : nat) : option Z :=
  match o, k with
  | None, O => None
  | None, S _ => Some (Z.of_nat k)
  | Some n, _ => Some (n + Z.of_nat k)%Z
  end.

(** The six entries [create_summary] writes before the issue counts. *)
Definition fixed_entries (df : Frame) : dict value :=
  [("total_tickets", VInt (Z.of_nat (len df)));
   ("flagged_tickets", VInt (Z.of_nat (len (flagged_subset true df))));
   ("flagged_percent",
    if 0 <? len df
    then VFloat (Some (Qmult (Qdiv (of_nat (len (flagged_subset true df)))
                                   (of_nat (len df)))
                             (inject_Z 100)))
    else VInt 0);
   ("average_resolution_time_hours",
    VFloat (series_mean (column resolution_time_hours df)));
   ("avg_resolution_flagged_hours", mean_or_sentinel (subset_times true df));
   ("avg_resolution_not_flagged_hours", mean_or_sentinel (subset_times false df))].

Definition summary_keys : list string :=
  ["total_tickets"; "flagged_tickets"; "flagged_percent";
   "average_resolution_time_hours"; "avg_resolution_flagged_hours";
   "avg_resolution_not_flagged_hours"].

(** A frame with one repeated row at the end. *)
Definition trailing_repeat : list Ticket := [refund_ticket; bug_ticket; bug_ticket].

(** A frame as read, with a missing subject. *)
Definition raw_frame : Frame :=
  load_data [refund_ticket;
             ticket (Str "low") (Str "open") NaN (Str "no subject here") None].

(** ** Plain text and its letters *)

(** Every character of the text is in the ASCII range. *)
Definition plainb (s : string) : bool :=
  forallb (fun c => code c <? 128) (chars s).
Definition plain (s : string) : Prop := plainb s = true.

(** Subject and message of every row are plain. *)
Definition plain_text (df : Frame) : Prop :=
  Forall (fun p => plain (str (subject (snd p))) /\
                   plain (str (message (snd p)))) df.


(** The four text cells of every row are plain. *)
Definition plain_cells (df : Frame) : Prop :=
  Forall (fun p => plain (str (priority (snd p))) /\
                   plain (str (status (snd p))) /\
                   plain (str (subject (snd p))) /\
                   plain (str (message (snd p)))) df.








(** ** A file whose first two rows differ only in the case of the priority *)

Definition shouted_ticket : Ticket :=
  ticket (Str "HIGH") (Str "open") (Str "Money back")
         (Str "Please refund my payment, this is a SCAM!!!") (Some (inject_Z 4)).

Definition case_variant_rows : list Ticket :=
  [refund_ticket; shouted_ticket; bug_ticket].

(** The rows of [tickets_cleaned.csv]: [to_csv(index=False)] writes the rows
    of the frame without their labels, and reading the file numbers them
    anew. *)
Definition exported_rows (df : Frame) : list Ticket := map snd df.

Definition exported_refund (to_datetime : cell -> option Z) : Ticket :=
  mkTicket (Str "High") (Str "Open") (Str "Money back")
           (Str "Please refund my payment, this is a SCAM!!!") (Some (inject_Z 4))
           (Timestamp (to_datetime (Str "2024-01-05")))
           (Some "Billing") (Some true) (Some "Excessive punctuation").

Definition exported_bug (to_datetime : cell -> option Z) : Ticket :=
  mkTicket (Str "Low") (Str "Closed") (Str "") (Str "bug") (Some (inject_Z 2))
           (Timestamp (to_datetime (Str "2024-01-05")))
           (Some "Technical") (Some true) (Some "Message too short").

(** The frame the first run returns for [case_variant_rows]. *)
Definition first_export (to_datetime : cell -> option Z) : Frame :=
  load_data [exported_refund to_datetime; exported_refund to_datetime;
             exported_bug to_datetime].

(** * Properties *)

(** ** Substring search *)

Lemma startswith_spec (w t : string) :
  startswith w t = true <-> exists suf, t = w ++ suf.
Proof.
  revert t; induction w as [|a w IH]; intros t; simpl.
  - split; [intros _; now exists t | reflexivity].
  - destruct t as [|b t].
    + split; [discriminate | intros [suf H]; discriminate].
    + rewrite andb_true_iff, Ascii.eqb_eq, IH. split.
      * intros [-> [suf ->]]. now exists suf.
      * intros [suf H]. injection H as -> ->. split; [reflexivity | now exists suf].
Qed.

Lemma str_in_spec (w t : string) : str_in w t = true <-> occurs_in w t.
Proof.
  unfold occurs_in. induction t as [|c t IH].
  - simpl. rewrite orb_false_r, startswith_spec. split.
    + intros [suf H]. now exists "", suf.
    + intros [pre [suf H]]. destruct pre; [now exists suf | discriminate].
  - cbn [str_in]. rewrite orb_true_iff, startswith_spec, IH. split.
    + intros [[suf H] | [pre [suf H]]].
      * now exists "", suf.
      * exists (String c pre), suf. simpl. now rewrite H.
    + intros [pre [suf H]]. destruct pre as [|c' pre].
      * left. now exists suf.
      * right. injection H as _ H. now exists pre, suf.
Qed.

Lemma str_in_false (w t : string) : str_in w t = false <-> ~ occurs_in w t.
Proof.
  rewrite <- str_in_spec. destruct (str_in w t); split; congruence.
Qed.

Lemma any_word_in_spec (words : list string) (text : string) :
  any_word_in words text = true <-> any_occurs words text.
Proof.
  unfold any_occurs. induction words as [|w ws IH]; simpl.
  - split; [discriminate | intros [w [[] _]]].
  - destruct (str_in w text) eqn:E.
    + split; [intros _ | reflexivity].
      exists w. split; [now left | now apply str_in_spec].
    + rewrite IH. apply str_in_false in E. split.
      * intros [w' [Hin Hocc]]. exists w'. split; [now right | assumption].
      * intros [w' [[<- | Hin] Hocc]]; [contradiction | now exists w'].
Qed.

Lemma any_word_in_false (words : list string) (text : string) :
  any_word_in words text = false <-> ~ any_occurs words text.
Proof.
  rewrite <- any_word_in_spec. destruct (any_word_in words text); split; congruence.
Qed.

(** The iteration order of a keyword set does not matter. *)
Lemma any_word_in_perm (ws ws' : list string) (text : string) :
  Permutation ws ws' -> any_word_in ws text = any_word_in ws' text.
Proof.
  intros HP.
  destruct (any_word_in ws text) eqn:E1, (any_word_in ws' text) eqn:E2;
    try reflexivity; exfalso.
  - apply any_word_in_spec in E1. apply any_word_in_false in E2. apply E2.
    destruct E1 as [w [Hin Hocc]]. exists w. split; [|assumption].
    now apply (Permutation_in _ HP).
  - apply any_word_in_false in E1. apply any_word_in_spec in E2. apply E1.
    destruct E2 as [w [Hin Hocc]]. exists w. split; [|assumption].
    now apply (Permutation_in _ (Permutation_sym HP)).
Qed.

Lemma classify_with_perm (bw bw' tw tw' aw aw' dw dw' : list string) (text : string) :
  Permutation bw bw' -> Permutation tw tw' ->
  Permutation aw aw' -> Permutation dw dw' ->
  classify_with bw tw aw dw text = classify_with bw' tw' aw' dw' text.
Proof.
  intros Hb Ht Ha Hd. unfold classify_with.
  now rewrite (any_word_in_perm _ _ _ Hb), (any_word_in_perm _ _ _ Ht),
    (any_word_in_perm _ _ _ Ha), (any_word_in_perm _ _ _ Hd).
Qed.

(** ** The row rule of the classifier *)





Lemma classify_with_other (bw tw aw dw : list string) (text : string) :
  any_word_in bw text = false -> any_word_in tw text = false ->
  any_word_in aw text = false -> any_word_in dw text = false ->
  classify_with bw tw aw dw text = "Other".
Proof. intros H1 H2 H3 H4. unfold classify_with. now rewrite H1, H2, H3, H4. Qed.







(** ** The row rule of the flagger *)





Lemma flag_message_reason (m : string) :
  (fst (flag_message m) = true <-> snd (flag_message m) <> "") /\
  In (snd (flag_message m)) flag_reasons.
Proof.
  unfold flag_message, flag_reasons.
  destruct (String.length m <? 20); [|destruct (isupper m);
    [|destruct (str_in "!!!" m || str_in "???" m)]];
    cbn [fst snd In]; (split; [split; [discriminate || congruence | intros H; reflexivity || (exfalso; now apply H)] | auto 10]).
Qed.

(** ** Trimming *)

Lemma lstrip_head (s : string) :
  lstrip s = "" \/ exists c r, lstrip s = String c r /\ char_isspace c = false.
Proof.
  induction s as [|a s IH]; simpl; [now left|].
  destruct (char_isspace a) eqn:E; [exact IH|]. right. now exists a, s.
Qed.

Lemma rstrip_cons (a : ascii) (s : string) :
  rstrip (String a s) =
  match rstrip s with
  | "" => if char_isspace a then "" else String a ""
  | String b r => String a (String b r)
  end.
Proof. reflexivity. Qed.

Lemma rstrip_idempotent (s : string) : rstrip (rstrip s) = rstrip s.
Proof.
  induction s as [|a s IH]; [reflexivity|].
  rewrite rstrip_cons. destruct (rstrip s) as [|b r] eqn:E.
  - destruct (char_isspace a) eqn:Ea; [reflexivity|].
    rewrite rstrip_cons. simpl. now rewrite Ea.
  - rewrite rstrip_cons. now rewrite IH.
Qed.

Lemma rstrip_head (c : ascii) (s : string) :
  char_isspace c = false -> exists r, rstrip (String c s) = String c r.
Proof.
  intros Hc. simpl. destruct (rstrip s) as [|b r].
  - rewrite Hc. now exists "".
  - now exists (String b r).
Qed.

Lemma strip_idempotent (s : string) : strip (strip s) = strip s.
Proof.
  unfold strip. destruct (lstrip_head s) as [-> | [c [r [-> Hc]]]]; [reflexivity|].
  destruct (rstrip_head c r Hc) as [r' Hr]. rewrite Hr.
  cbn [lstrip]. rewrite Hc, <- Hr. apply rstrip_idempotent.
Qed.

(** ** Label lookups in a frame *)

Lemma loc_In {A : Type} (df : Frame) (l : nat) (r : Ticket) (col : Ticket -> A) :
  NoDup (index df) -> In (l, r) df -> loc df l col = Ok (col r).
Proof.
  unfold index. induction df as [|[l' r'] df IH]; intros Hnd Hin; [destruct Hin|].
  simpl in *. inversion Hnd as [|? ? Hnotin Hnd']; subst.
  destruct Hin as [Heq | Hin].
  - injection Heq as -> ->. now rewrite Nat.eqb_refl.
  - destruct (l' =? l) eqn:E.
    + apply Nat.eqb_eq in E. subst l'. exfalso. apply Hnotin.
      change l with (fst (l, r)). now apply in_map.
    + now apply IH.
Qed.

Lemma loc_missing {A : Type} (df : Frame) (l : nat) (col : Ticket -> A) :
  ~ In l (index df) -> loc df l col = Err KeyError.
Proof.
  unfold index. induction df as [|[l' r'] df IH]; intros Hnotin; [reflexivity|].
  simpl in *. destruct (l' =? l) eqn:E.
  - apply Nat.eqb_eq in E. exfalso. apply Hnotin. now left.
  - apply IH. intros H. apply Hnotin. now right.
Qed.

Lemma RangeIndex_NoDup (df : Frame) : RangeIndex df -> NoDup (index df).
Proof. unfold RangeIndex, range. intros ->. apply seq_NoDup. Qed.

Lemma index_update_rows (f : Ticket -> Ticket) (df : Frame) :
  index (update_rows f df) = index df.
Proof.
  unfold index, update_rows. rewrite map_map. now apply map_ext.
Qed.

Lemma len_update_rows (f : Ticket -> Ticket) (df : Frame) :
  len (update_rows f df) = len df.
Proof. unfold len, update_rows. apply length_map. Qed.

Lemma RangeIndex_update_rows (f : Ticket -> Ticket) (df : Frame) :
  RangeIndex df -> RangeIndex (update_rows f df).
Proof.
  unfold RangeIndex. now rewrite index_update_rows, len_update_rows.
Qed.

Lemma load_data_RangeIndex (rows : list Ticket) : RangeIndex (load_data rows).
Proof.
  unfold RangeIndex, load_data, index, len, range.
  rewrite length_combine, length_seq, Nat.min_id.
  generalize 0. induction rows as [|r rows IH]; intros k; simpl; [reflexivity|].
  now rewrite IH.
Qed.

Lemma assign_map {A : Type} (set : Ticket -> A -> Ticket) (g : Ticket -> A)
    (df : Frame) :
  assign set df (map (fun p => g (snd p)) df) = update_rows (fun r => set r (g r)) df.
Proof.
  unfold assign, update_rows. induction df as [|p df IH]; simpl; [reflexivity|].
  now rewrite IH.
Qed.

Lemma Forall2_update_rows (R : nat * Ticket -> nat * Ticket -> Prop)
    (f : Ticket -> Ticket) (df : Frame) :
  (forall p, In p df -> R p (fst p, f (snd p))) ->
  Forall2 R df (update_rows f df).
Proof.
  unfold update_rows. induction df as [|p df IH]; intros H; simpl; constructor.
  - apply H. now left.
  - apply IH. intros q Hq. apply H. now right.
Qed.

(** ** The loops of the classifier and of the flagger *)

Lemma issue_of_row_In (df : Frame) (l : nat) (r : Ticket) :
  NoDup (index df) -> In (l, r) df ->
  is_text (subject r) -> is_text (message r) ->
  issue_of_row df l = Ok (classify_text (row_text r)).
Proof.
  intros Hnd Hin [s Hs] [m Hm]. unfold issue_of_row, row_text.
  rewrite (loc_In df l r subject Hnd Hin), (loc_In df l r message Hnd Hin), Hs, Hm.
  reflexivity.
Qed.

Lemma classify_loop_part (df part : Frame) :
  NoDup (index df) -> incl part df -> text_columns part ->
  classify_loop df (index part) =
  Ok (map (fun p => classify_text (row_text (snd p))) part).
Proof.
  intros Hnd. induction part as [|[l r] part IH]; intros Hincl Htext; [reflexivity|].
  inversion Htext as [|? ? [Hs Hm] Htext']; subst. simpl in Hs, Hm.
  cbn [index map fst classify_loop].
  rewrite (issue_of_row_In df l r Hnd (Hincl _ (or_introl eq_refl)) Hs Hm).
  simpl. unfold index in IH. rewrite IH; [reflexivity | | assumption].
  intros q Hq. apply Hincl. now right.
Qed.

Lemma classify_issues_RangeIndex (df : Frame) :
  RangeIndex df -> text_columns df ->
  classify_issues df =
  Ok (update_rows (fun r => set_issue_type r (classify_text (row_text r))) df).
Proof.
  intros Hri Htext. unfold classify_issues. rewrite <- Hri.
  rewrite (classify_loop_part df df (RangeIndex_NoDup df Hri) (incl_refl df) Htext).
  simpl. now rewrite (assign_map set_issue_type (fun r => classify_text (row_text r))).
Qed.

Lemma flag_of_row_In (df : Frame) (l : nat) (r : Ticket) :
  NoDup (index df) -> In (l, r) df ->
  flag_of_row df l = Ok (flag_message (str (message r))).
Proof.
  intros Hnd Hin. unfold flag_of_row.
  now rewrite (loc_In df l r message Hnd Hin).
Qed.

Lemma flag_loop_part (df part : Frame) :
  NoDup (index df) -> incl part df ->
  flag_loop df (index part) =
  Ok (map (fun p => flag_message (str (message (snd p)))) part).
Proof.
  intros Hnd. induction part as [|[l r] part IH]; intros Hincl; [reflexivity|].
  cbn [index map fst flag_loop].
  rewrite (flag_of_row_In df l r Hnd (Hincl _ (or_introl eq_refl))).
  simpl. unfold index in IH. rewrite IH; [reflexivity|].
  intros q Hq. apply Hincl. now right.
Qed.

Lemma flag_tickets_RangeIndex (df : Frame) :
  RangeIndex df ->
  flag_tickets df =
  Ok (update_rows (fun r => set_flag r (flag_message (str (message r)))) df).
Proof.
  intros Hri. unfold flag_tickets. rewrite <- Hri.
  rewrite (flag_loop_part df df (RangeIndex_NoDup df Hri) (incl_refl df)).
  simpl. now rewrite (assign_map set_flag (fun r => flag_message (str (message r)))).
Qed.

Lemma classify_and_flag_RangeIndex (df : Frame) :
  RangeIndex df -> text_columns df ->
  classify_and_flag df =
  Ok (update_rows
        (fun r => set_flag (set_issue_type r (classify_text (row_text r)))
                           (flag_message (str (message r)))) df).
Proof.
  intros Hri Htext. unfold classify_and_flag.
  rewrite (classify_issues_RangeIndex df Hri Htext). simpl.
  rewrite flag_tickets_RangeIndex by now apply RangeIndex_update_rows.
  f_equal. unfold update_rows. rewrite map_map. now apply map_ext.
Qed.

(** ** Plain text and letters *)











(** ** The classifier *)





(** ** The flagger *)






(** C7.  On a frame that carries the index 0..n-1, [flag_tickets] returns a
    frame with as many rows in which every row has a flag and a reason, the
    flag is true exactly when the reason is not empty, and the reason is one
    of "Message too short", "Message in all caps", "Excessive punctuation"
    and the empty string. *)
Theorem flag_tickets_reason_invariant (df : Frame) :
  RangeIndex df ->
  exists out,
    flag_tickets df = Ok out /\
    len out = len df /\
    Forall (fun q =>
              exists flag reason,
                is_flagged (snd q) = Some flag /\
                flag_reason (snd q) = Some reason /\
                (flag = true <-> reason <> "") /\
                In reason flag_reasons)
           out.
Proof.
  intros Hri. eexists. split; [now apply flag_tickets_RangeIndex|].
  split; [apply len_update_rows|].
  unfold update_rows. apply Forall_map, Forall_forall. intros p _.
  exists (fst (flag_message (str (message (snd p))))),
         (snd (flag_message (str (message (snd p))))).
  split; [reflexivity|]. split; [reflexivity|]. apply flag_message_reason.
Qed.

Lemma flag_tickets_reason_invariant_witness :
  exists out,
    flag_tickets sample_frame = Ok out /\
    len out = len sample_frame /\
    Forall (fun q =>
              exists flag reason,
                is_flagged (snd q) = Some flag /\
                flag_reason (snd q) = Some reason /\
                (flag = true <-> reason <> "") /\
                In reason flag_reasons)
           out.
Proof.
  apply (flag_tickets_reason_invariant sample_frame). reflexivity.
Defined.

(** ** Row locality *)

Lemma nth_error_update_rows (f : Ticket -> Ticket) (df : Frame) (i : nat)
    (p : nat * Ticket) :
  nth_error df i = Some p ->
  nth_error (update_rows f df) i = Some (fst p, f (snd p)).
Proof.
  intros H. unfold update_rows. now rewrite nth_error_map, H.
Qed.

(** C10.  Take two frames (or twice the same one) on which classification
    and flagging run.  Whatever the positions of two rows and whatever the
    other rows hold, equal subject and message give equal [issue_type], and
    equal message gives equal [is_flagged] and equal [flag_reason]. *)
Theorem classify_and_flag_row_local (df1 df2 : Frame) :
  RangeIndex df1 -> text_columns df1 ->
  RangeIndex df2 -> text_columns df2 ->
  exists out1 out2,
    classify_and_flag df1 = Ok out1 /\
    classify_and_flag df2 = Ok out2 /\
    forall i j p1 p2,
      nth_error df1 i = Some p1 -> nth_error df2 j = Some p2 ->
      exists q1 q2,
        nth_error out1 i = Some q1 /\ nth_error out2 j = Some q2 /\
        (subject (snd p1) = subject (snd p2) ->
         message (snd p1) = message (snd p2) ->
         issue_type (snd q1) = issue_type (snd q2)) /\
        (message (snd p1) = message (snd p2) ->
         is_flagged (snd q1) = is_flagged (snd q2) /\
         flag_reason (snd q1) = flag_reason (snd q2)).
Proof.
  intros Hri1 Ht1 Hri2 Ht2. do 2 eexists.
  split; [now apply classify_and_flag_RangeIndex|].
  split; [now apply classify_and_flag_RangeIndex|].
  intros i j p1 p2 H1 H2. do 2 eexists.
  split; [exact (nth_error_update_rows _ _ _ _ H1)|].
  split; [exact (nth_error_update_rows _ _ _ _ H2)|].
  cbn [snd set_flag set_issue_type issue_type is_flagged flag_reason]. split.
  - intros Hs Hm. unfold row_text. now rewrite Hs, Hm.
  - intros Hm. now rewrite Hm.
Qed.

Lemma classify_and_flag_row_local_witness :
  exists out1 out2,
    classify_and_flag sample_frame = Ok out1 /\
    classify_and_flag other_frame = Ok out2 /\
    forall i j p1 p2,
      nth_error sample_frame i = Some p1 -> nth_error other_frame j = Some p2 ->
      exists q1 q2,
        nth_error out1 i = Some q1 /\ nth_error out2 j = Some q2 /\
        (subject (snd p1) = subject (snd p2) ->
         message (snd p1) = message (snd p2) ->
         issue_type (snd q1) = issue_type (snd q2)) /\
        (message (snd p1) = message (snd p2) ->
         is_flagged (snd q1) = is_flagged (snd q2) /\
         flag_reason (snd q1) = flag_reason (snd q2)).
Proof.
  apply (classify_and_flag_row_local sample_frame other_frame).
  - reflexivity.
  - repeat constructor; eexists; reflexivity.
  - reflexivity.
  - repeat constructor; eexists; reflexivity.
Defined.

(** ** Cleaning already cleaned text *)

Lemma clean_text_row_trimmed (r : Ticket) :
  is_trimmed (subject r) -> is_trimmed (message r) ->
  subject (clean_text_row r) = subject r /\ message (clean_text_row r) = message r.
Proof.
  intros [s [Hs Hs']] [m [Hm Hm']]. unfold clean_text_row. cbn [subject message].
  rewrite Hs, Hm. cbn [str]. now rewrite Hs', Hm'.
Qed.

Lemma clean_text_columns_trimmed (df : Frame) :
  trimmed_columns (clean_text_columns df).
Proof.
  unfold trimmed_columns, clean_text_columns, update_rows.
  apply Forall_map, Forall_forall. intros p _. cbn [snd clean_text_row subject message].
  split; eexists; (split; [reflexivity | apply strip_idempotent]).
Qed.

Lemma clean_text_columns_text (df : Frame) :
  text_columns (clean_text_columns df).
Proof.
  unfold text_columns, clean_text_columns, update_rows.
  apply Forall_map, Forall_forall. intros p _. cbn [snd clean_text_row subject message].
  split; eexists; reflexivity.
Qed.

Lemma trimmed_columns_text (df : Frame) : trimmed_columns df -> text_columns df.
Proof.
  unfold trimmed_columns, text_columns. apply Forall_impl.
  intros p [[s [Hs _]] [m [Hm _]]]. split; eexists; eassumption.
Qed.

(** On a frame that carries the index 0..n-1 and whose subject and message
    are trimmed strings, cleaning the text columns once more before
    classifying and flagging gives every row the same [issue_type],
    [is_flagged] and [flag_reason] as classifying and flagging directly. *)
Lemma clean_again_same_assignments (df : Frame) :
  RangeIndex df -> trimmed_columns df ->
  exists a,
    fmap assignments (classify_and_flag (clean_text_columns df)) = Ok a /\
    fmap assignments (classify_and_flag df) = Ok a.
Proof.
  intros Hri Htrim.
  exists (assignments
            (update_rows
               (fun r => set_flag (set_issue_type r (classify_text (row_text r)))
                                  (flag_message (str (message r)))) df)).
  split.
  - rewrite classify_and_flag_RangeIndex;
      [| now apply RangeIndex_update_rows | apply clean_text_columns_text].
    cbn [fmap bind]. f_equal.
    unfold assignments, clean_text_columns, update_rows. rewrite !map_map.
    apply map_ext_in. intros p Hp.
    unfold trimmed_columns in Htrim. rewrite Forall_forall in Htrim.
    destruct (Htrim p Hp) as [Hs Hm].
    destruct (clean_text_row_trimmed (snd p) Hs Hm) as [Es Em].
    cbn [snd fst set_flag set_issue_type issue_type is_flagged flag_reason].
    unfold row_text. now rewrite Es, Em.
  - rewrite classify_and_flag_RangeIndex;
      [| assumption | now apply trimmed_columns_text].
    reflexivity.
Qed.

(** ** The summary *)

Lemma dict_get_set_same {V : Type} (d : dict V) (k : string) (v : V) :
  dict_get (dict_set d k v) k = Some v.
Proof.
  induction d as [|[k0 w] d IH]; simpl.
  - now rewrite String.eqb_refl.
  - destruct (String.eqb k0 k) eqn:E; simpl; now rewrite E.
Qed.

Lemma dict_get_set_other {V : Type} (d : dict V) (k k' : string) (v : V) :
  String.eqb k k' = false -> dict_get (dict_set d k v) k' = dict_get d k'.
Proof.
  intros Hk. induction d as [|[k0 w] d IH]; simpl.
  - now rewrite Hk.
  - destruct (String.eqb k0 k) eqn:E; simpl.
    + apply String.eqb_eq in E. subst k0. now rewrite Hk.
    + destruct (String.eqb k0 k'); [reflexivity | exact IH].
Qed.

Lemma dict_get_add_issue_counts (issue_counts : dict Z) (summary : dict value)
    (key : string) :
  (forall issue, String.eqb ("issue_count_" ++ issue) key = false) ->
  dict_get (add_issue_counts summary issue_counts) key = dict_get summary key.
Proof.
  intros Hkey. revert summary.
  induction issue_counts as [|[issue n] rest IH]; intros summary; simpl.
  - reflexivity.
  - rewrite IH. apply dict_get_set_other. exact (Hkey issue).
Qed.

Lemma issue_count_loop_part (df part : Frame) (d : dict Z) :
  NoDup (index df) -> incl part df -> labelled part ->
  exists d', issue_count_loop df (index part) d = Ok d'.
Proof.
  intros Hnd. revert d. induction part as [|[l r] part IH]; intros d Hincl Hlab.
  - now exists d.
  - inversion Hlab as [|? ? [_ [issue Hi]] Hlab']; subst. simpl in Hi.
    cbn [index map fst issue_count_loop].
    rewrite (loc_In df l r issue_type Hnd (Hincl _ (or_introl eq_refl))), Hi.
    cbn [bind present]. apply IH; [|assumption].
    intros q Hq. apply Hincl. now right.
Qed.

Lemma resolution_loop_part (df part : Frame) (acc : sums) :
  NoDup (index df) -> incl part df -> labelled part ->
  resolution_loop df (index part) acc =
  Ok (mkSums (fold_left fadd (subset_times true part) (flagged_sum acc))
             (flagged_n acc + List.length (subset_times true part))
             (fold_left fadd (subset_times false part) (not_flagged_sum acc))
             (not_flagged_n acc + List.length (subset_times false part))).
Proof.
  intros Hnd. revert acc. induction part as [|[l r] part IH]; intros acc Hincl Hlab.
  - destruct acc. simpl. now rewrite !Nat.add_0_r.
  - inversion Hlab as [|? ? [[f Hf] _] Hlab']; subst. simpl in Hf.
    assert (Hin : In (l, r) df) by (apply Hincl; now left).
    assert (Hincl' : incl part df) by (intros q Hq; apply Hincl; now right).
    cbn [index map fst resolution_loop].
    rewrite (loc_In df l r resolution_time_hours Hnd Hin),
      (loc_In df l r is_flagged Hnd Hin), Hf.
    cbn [bind present]. unfold index in IH. rewrite (IH _ Hincl' Hlab').
    unfold subset_times. cbn [filter snd]. rewrite Hf.
    destruct f; cbn [Bool.eqb option_eqb map fold_left List.length
                     flagged_sum flagged_n not_flagged_sum not_flagged_n];
      f_equal; f_equal; lia.
Qed.

Example create_summary_empty :
  fmap (fun s => (dict_get s "flagged_percent",
                  dict_get s "avg_resolution_flagged_hours",
                  dict_get s "avg_resolution_not_flagged_hours"))
       (create_summary []) =
  Ok (Some (VInt 0), Some (VStr "N/A"), Some (VStr "N/A")).
Proof. reflexivity. Qed.

(** ** Missing priority and status *)

Lemma clean_then_fill_missing (median_time : number) (r : Ticket) :
  priority r = NaN ->
  priority (handle_missing_row median_time (clean_text_row r)) = Str "Nan".
Proof. intros H. cbn [handle_missing_row clean_text_row priority]. now rewrite H. Qed.

Lemma clean_then_fill_missing_status (median_time : number) (r : Ticket) :
  status r = NaN ->
  status (handle_missing_row median_time (clean_text_row r)) = Str "Nan".
Proof. intros H. cbn [handle_missing_row clean_text_row status]. now rewrite H. Qed.

(** After [clean_text_columns] no priority or status cell is missing, so the
    [fillna] calls of [handle_missing_values] change nothing in them. *)
Lemma fillna_after_clean (median_time : number) (r : Ticket) :
  priority (handle_missing_row median_time (clean_text_row r)) =
    priority (clean_text_row r) /\
  status (handle_missing_row median_time (clean_text_row r)) =
    status (clean_text_row r).
Proof. split; reflexivity. Qed.

(** C4.  A ticket read with an empty priority and an empty status leaves the
    cleaning stages with priority "Nan" and status "Nan": [astype(str)] has
    turned the missing cells into the text "nan" before [fillna] looks for
    missing cells, so the defaults "Low" and "Open" are never written. *)
Theorem missing_priority_status_not_defaulted :
  forall to_datetime,
    column priority (cleaning to_datetime [blank_ticket]) = [Str "Nan"] /\
    column status (cleaning to_datetime [blank_ticket]) = [Str "Nan"] /\
    column priority (cleaning to_datetime [blank_ticket]) <> [Str "Low"] /\
    column status (cleaning to_datetime [blank_ticket]) <> [Str "Open"].
Proof.
  intros to_datetime. repeat split; try reflexivity; discriminate.
Qed.

(** ** Index labels after deduplication *)

Lemma classify_loop_missing (df : Frame) (idx : list nat) (i : nat) :
  In i idx -> ~ In i (index df) -> exists e, classify_loop df idx = Err e.
Proof.
  intros Hin Hmiss. induction idx as [|j idx IH]; [destruct Hin|].
  cbn [classify_loop]. destruct (issue_of_row df j) as [issue | e] eqn:E.
  - destruct Hin as [-> | Hin].
    + unfold issue_of_row in E. rewrite (loc_missing df i subject Hmiss) in E.
      discriminate.
    + destruct (IH Hin) as [e ->]. now exists e.
  - now exists e.
Qed.

(** A frame that lacks one of the labels 0..n-1 cannot be classified. *)
Lemma classify_issues_gap (df : Frame) (i : nat) :
  i < len df -> ~ In i (index df) -> exists e, classify_issues df = Err e.
Proof.
  intros Hlt Hmiss. unfold classify_issues.
  destruct (classify_loop_missing df (range (len df)) i) as [e ->].
  - unfold range. apply in_seq. lia.
  - assumption.
  - now exists e.
Qed.

(** C3.  A file whose second line repeats the first: deduplication keeps
    the rows labelled 0 and 2, the classifier then asks for the row labelled
    1 and the run stops with [KeyError]; no row is classified or flagged. *)
Theorem duplicate_row_stops_classification :
  forall to_datetime,
    index (cleaning to_datetime repeated_rows) = [0; 2] /\
    classify_issues (cleaning to_datetime repeated_rows) = Err KeyError /\
    flag_tickets (cleaning to_datetime repeated_rows) = Err KeyError /\
    main to_datetime repeated_rows = Err KeyError.
Proof.
  intros to_datetime. repeat split; reflexivity.
Qed.

(** The labels that survive deduplication are still in increasing order. *)
Lemma drop_duplicates_from_incl (seen : list Ticket) (df : Frame) :
  incl (drop_duplicates_from seen df) df.
Proof.
  revert seen. induction df as [|[l r] df IH]; intros seen; simpl.
  - apply incl_refl.
  - destruct (existsb (ticket_eqb r) seen).
    + apply incl_tl, IH.
    + apply incl_cons; [now left | apply incl_tl, IH].
Qed.

Lemma drop_duplicates_from_sorted (seen : list Ticket) (df : Frame) :
  StronglySorted lt (index df) ->
  StronglySorted lt (index (drop_duplicates_from seen df)).
Proof.
  unfold index. revert seen. induction df as [|[l r] df IH]; intros seen Hs; simpl.
  - constructor.
  - simpl in Hs. inversion Hs as [|? ? Hs' Hall]; subst.
    destruct (existsb (ticket_eqb r) seen); [now apply IH|].
    simpl. constructor; [now apply IH|].
    rewrite Forall_forall in *. intros x Hx. apply Hall.
    apply in_map_iff in Hx. destruct Hx as [q [<- Hq]].
    apply in_map. now apply (drop_duplicates_from_incl (r :: seen) df).
Qed.

Lemma seq_sorted (k n : nat) : StronglySorted lt (seq k n).
Proof.
  revert k. induction n as [|n IH]; intros k; simpl; constructor.
  - apply IH.
  - apply Forall_forall. intros x Hx. apply in_seq in Hx. lia.
Qed.

Lemma sorted_complete_is_seq (l : list nat) (k : nat) :
  StronglySorted lt l -> Forall (le k) l ->
  (forall i, k <= i < k + List.length l -> In i l) ->
  l = seq k (List.length l).
Proof.
  revert k. induction l as [|a l IH]; intros k Hs Hge Hall; [reflexivity|].
  inversion Hs as [|? ? Hs' Hgt]; subst.
  inversion Hge as [|? ? Hka Hge']; subst.
  rewrite Forall_forall in Hgt.
  assert (a = k) as ->.
  { destruct (Hall k) as [H | H]; [simpl; lia | assumption |].
    specialize (Hgt k H). lia. }
  simpl. f_equal. apply IH; [assumption | |].
  - apply Forall_forall. intros x Hx. specialize (Hgt x Hx). lia.
  - intros i Hi. destruct (Hall i) as [H | H]; [simpl; lia | lia | assumption].
Qed.

Lemma classify_issues_Ok_labels (df out : Frame) (i : nat) :
  classify_issues df = Ok out -> i < len df -> In i (index df).
Proof.
  intros Hok Hlt. destruct (in_dec Nat.eq_dec i (index df)) as [H | H]; [exact H|].
  destruct (classify_issues_gap df i Hlt H) as [e He]. congruence.
Qed.

(** On a frame whose labels increase, the classifier returns only if the
    labels are 0..n-1. *)
Lemma classify_issues_Ok_RangeIndex (df out : Frame) :
  StronglySorted lt (index df) -> classify_issues df = Ok out -> RangeIndex df.
Proof.
  intros Hs Hok. unfold RangeIndex, range, len.
  replace (List.length df) with (List.length (index df))
    by (unfold index; apply length_map).
  apply sorted_complete_is_seq; [assumption | |].
  - apply Forall_forall. intros x _. lia.
  - intros i Hi. apply (classify_issues_Ok_labels df out); [assumption|].
    unfold len. unfold index in Hi. rewrite length_map in Hi. lia.
Qed.

Lemma cleaning_index (to_datetime : cell -> option Z) (rows : list Ticket) :
  index (cleaning to_datetime rows) = index (remove_duplicates (load_data rows)).
Proof.
  unfold cleaning, clean_dates, handle_missing_values, clean_text_columns.
  now rewrite !index_update_rows.
Qed.

Lemma cleaning_sorted (to_datetime : cell -> option Z) (rows : list Ticket) :
  StronglySorted lt (index (cleaning to_datetime rows)).
Proof.
  rewrite cleaning_index. unfold remove_duplicates, drop_duplicates.
  apply drop_duplicates_from_sorted. rewrite (load_data_RangeIndex rows).
  apply seq_sorted.
Qed.

Lemma cleaning_text_columns (to_datetime : cell -> option Z) (rows : list Ticket) :
  text_columns (cleaning to_datetime rows).
Proof.
  unfold cleaning, clean_dates, handle_missing_values, clean_text_columns,
    text_columns, update_rows.
  rewrite !map_map. apply Forall_map, Forall_forall. intros p _.
  cbn [snd clean_date_row handle_missing_row clean_text_row subject message].
  split; eexists; reflexivity.
Qed.

(** Every run of [main] that returns went through a frame that meets the
    conditions under which the classifier and the flagger are described
    above, and returns the frame they describe. *)
Lemma main_Ok_stages (to_datetime : cell -> option Z) (rows : list Ticket)
    (out : Frame) (summary : dict value) :
  main to_datetime rows = Ok (out, summary) ->
  RangeIndex (cleaning to_datetime rows) /\
  text_columns (cleaning to_datetime rows) /\
  classify_and_flag (cleaning to_datetime rows) = Ok out.
Proof.
  intros Hmain. unfold main in Hmain.
  destruct (classify_issues (cleaning to_datetime rows)) as [df1 | e] eqn:E1;
    [|discriminate].
  split; [|split].
  - apply (classify_issues_Ok_RangeIndex _ df1); [apply cleaning_sorted | exact E1].
  - apply cleaning_text_columns.
  - unfold classify_and_flag. rewrite E1. cbn [bind] in *.
    destruct (flag_tickets df1) as [df2 | e]; [|discriminate].
    cbn [bind] in Hmain.
    destruct (create_summary df2); [|discriminate]. cbn [bind] in Hmain. congruence.
Qed.

(** A file without repeated rows is classified and flagged. *)
Lemma cleaning_no_duplicates (to_datetime : cell -> option Z) (rows : list Ticket) :
  remove_duplicates (load_data rows) = load_data rows ->
  exists out, classify_and_flag (cleaning to_datetime rows) = Ok out.
Proof.
  intros Hnodup. eexists. apply classify_and_flag_RangeIndex.
  - unfold RangeIndex. rewrite cleaning_index, Hnodup.
    unfold cleaning, clean_dates, handle_missing_values, clean_text_columns.
    rewrite !len_update_rows, Hnodup. apply load_data_RangeIndex.
  - apply cleaning_text_columns.
Qed.

(** ** The scenarios of the specification *)

Example first_match_refund : first_match (row_text refund_ticket) "Billing".
Proof.
  apply first_billing. exists "refund". split; [simpl; auto|].
  apply str_in_spec. reflexivity.
Qed.

Example first_match_lateness : first_match (row_text late_ticket) "Delivery".
Proof.
  apply first_delivery;
    try (apply any_word_in_false; reflexivity).
  exists "late". split; [simpl; auto|]. apply str_in_spec. reflexivity.
Qed.

Example scenario_refund :
  classify_text (lower ("" ++ " " ++ "Please refund my payment, this is a SCAM!!!"))
    = "Billing" /\
  flag_message "Please refund my payment, this is a SCAM!!!"
    = (true, "Excessive punctuation").
Proof. split; reflexivity. Qed.

Example scenario_bug :
  classify_text (lower ("" ++ " " ++ "bug")) = "Technical" /\
  flag_message "bug" = (true, "Message too short").
Proof. split; reflexivity. Qed.

Example scenario_empty :
  lower ("" ++ " " ++ "") = " " /\
  classify_text (lower ("" ++ " " ++ "")) = "Other" /\
  flag_message "" = (true, "Message too short").
Proof. repeat split; reflexivity. Qed.

Example scenario_short_capitals :
  isupper "HELLO" = true /\ flag_message "HELLO" = (true, "Message too short").
Proof. split; reflexivity. Qed.

Example scenario_capitals :
  flag_message "THIS IS NOT ACCEPTABLE AT ALL" = (true, "Message in all caps").
Proof. reflexivity. Qed.

Example scenario_embedded_keyword :
  classify_text (lower ("Where is it" ++ " " ++ "My parcel shows lateness on the site"))
    = "Delivery".
Proof. reflexivity. Qed.

Example scenario_billing_before_technical :
  classify_text (lower ("Login error" ++ " " ++ "charged twice after the crash"))
    = "Billing".
Proof. reflexivity. Qed.

(** * Further properties of the stages *)

(** ** Row equality is an equivalence *)

Lemma option_eqb_refl {A : Type} (eqb : A -> A -> bool) :
  (forall x, eqb x x = true) -> forall a, option_eqb eqb a a = true.
Proof. intros H [x|]; simpl; auto. Qed.

Lemma option_eqb_sym {A : Type} (eqb : A -> A -> bool) :
  (forall x y, eqb x y = eqb y x) ->
  forall a b, option_eqb eqb a b = option_eqb eqb b a.
Proof. intros H [x|] [y|]; simpl; auto. Qed.

Lemma option_eqb_trans {A : Type} (eqb : A -> A -> bool) :
  (forall x y z, eqb x y = true -> eqb y z = true -> eqb x z = true) ->
  forall a b c,
    option_eqb eqb a b = true -> option_eqb eqb b c = true ->
    option_eqb eqb a c = true.
Proof. intros H [x|] [y|] [z|]; simpl; eauto; discriminate. Qed.

Lemma string_eqb_trans (x y z : string) :
  String.eqb x y = true -> String.eqb y z = true -> String.eqb x z = true.
Proof. rewrite !String.eqb_eq. congruence. Qed.

Lemma cell_eqb_refl (a : cell) : cell_eqb a a = true.
Proof. destruct a; simpl; [reflexivity | apply String.eqb_refl]. Qed.

Lemma cell_eqb_sym (a b : cell) : cell_eqb a b = cell_eqb b a.
Proof. destruct a, b; simpl; try reflexivity. apply String.eqb_sym. Qed.

Lemma cell_eqb_trans (a b c : cell) :
  cell_eqb a b = true -> cell_eqb b c = true -> cell_eqb a c = true.
Proof.
  destruct a, b, c; simpl; try discriminate; auto. apply string_eqb_trans.
Qed.

Lemma Qeq_bool_comm (x y : Q) : Qeq_bool x y = Qeq_bool y x.
Proof.
  destruct (Qeq_bool x y) eqn:E1, (Qeq_bool y x) eqn:E2; try reflexivity.
  - apply Qeq_bool_sym in E1. congruence.
  - apply Qeq_bool_sym in E2. congruence.
Qed.

Lemma Z_eqb_trans (x y z : Z) :
  Z.eqb x y = true -> Z.eqb y z = true -> Z.eqb x z = true.
Proof. rewrite !Z.eqb_eq. congruence. Qed.

Lemma bool_eqb_sym (x y : bool) : Bool.eqb x y = Bool.eqb y x.
Proof. destruct x, y; reflexivity. Qed.

Lemma bool_eqb_trans (x y z : bool) :
  Bool.eqb x y = true -> Bool.eqb y z = true -> Bool.eqb x z = true.
Proof. destruct x, y, z; simpl; auto. Qed.

Lemma date_eqb_refl (a : date) : date_eqb a a = true.
Proof.
  destruct a; simpl; [apply cell_eqb_refl | apply option_eqb_refl, Z.eqb_refl].
Qed.

Lemma date_eqb_sym (a b : date) : date_eqb a b = date_eqb b a.
Proof.
  destruct a, b; simpl; try reflexivity;
    [apply cell_eqb_sym | apply option_eqb_sym, Z.eqb_sym].
Qed.

Lemma date_eqb_trans (a b c : date) :
  date_eqb a b = true -> date_eqb b c = true -> date_eqb a c = true.
Proof.
  destruct a, b, c; simpl; try discriminate;
    [apply cell_eqb_trans | apply option_eqb_trans, Z_eqb_trans].
Qed.

Lemma ticket_eqb_refl (a : Ticket) : ticket_eqb a a = true.
Proof.
  unfold ticket_eqb, number_eqb.
  rewrite !cell_eqb_refl, date_eqb_refl.
  rewrite (option_eqb_refl Qeq_bool Qeq_bool_refl).
  rewrite !(option_eqb_refl String.eqb String.eqb_refl).
  rewrite (option_eqb_refl Bool.eqb Bool.eqb_reflx). reflexivity.
Qed.

Lemma ticket_eqb_sym (a b : Ticket) : ticket_eqb a b = ticket_eqb b a.
Proof.
  unfold ticket_eqb, number_eqb.
  rewrite (cell_eqb_sym (priority a)), (cell_eqb_sym (status a)),
    (cell_eqb_sym (subject a)), (cell_eqb_sym (message a)),
    (date_eqb_sym (created_date a)),
    (option_eqb_sym Qeq_bool Qeq_bool_comm (resolution_time_hours a)),
    (option_eqb_sym String.eqb String.eqb_sym (issue_type a)),
    (option_eqb_sym String.eqb String.eqb_sym (flag_reason a)),
    (option_eqb_sym Bool.eqb bool_eqb_sym (is_flagged a)).
  reflexivity.
Qed.

Lemma ticket_eqb_trans (a b c : Ticket) :
  ticket_eqb a b = true -> ticket_eqb b c = true -> ticket_eqb a c = true.
Proof.
  unfold ticket_eqb, number_eqb. rewrite !andb_true_iff.
  intros [[[[[[[[H1 H2] H3] H4] H5] H6] H7] H8] H9]
         [[[[[[[[G1 G2] G3] G4] G5] G6] G7] G8] G9].
  repeat split; eauto using cell_eqb_trans, date_eqb_trans.
  - exact (option_eqb_trans Qeq_bool Qeq_bool_trans _ _ _ H5 G5).
  - exact (option_eqb_trans String.eqb string_eqb_trans _ _ _ H7 G7).
  - exact (option_eqb_trans Bool.eqb bool_eqb_trans _ _ _ H8 G8).
  - exact (option_eqb_trans String.eqb string_eqb_trans _ _ _ H9 G9).
Qed.

(** ** [remove_duplicates] *)

Lemma drop_duplicates_from_fresh (seen : list Ticket) (df : Frame) :
  Forall (fun p => existsb (ticket_eqb (snd p)) seen = false)
         (drop_duplicates_from seen df).
Proof.
  revert seen. induction df as [|[l r] df IH]; intros seen; simpl; [constructor|].
  destruct (existsb (ticket_eqb r) seen) eqn:E; [apply IH|].
  constructor; [exact E|].
  specialize (IH (r :: seen)). rewrite Forall_forall in *.
  intros q Hq. specialize (IH q Hq). simpl in IH.
  apply orb_false_iff in IH. tauto.
Qed.

Lemma drop_duplicates_from_distinct (seen : list Ticket) (df : Frame) :
  distinct_rows (drop_duplicates_from seen df).
Proof.
  unfold distinct_rows. revert seen.
  induction df as [|[l r] df IH]; intros seen; simpl; [constructor|].
  destruct (existsb (ticket_eqb r) seen) eqn:E; [apply IH|].
  constructor; [|apply IH].
  pose proof (drop_duplicates_from_fresh (r :: seen) df) as Hf.
  rewrite Forall_forall in *. intros q Hq. specialize (Hf q Hq). simpl in Hf.
  apply orb_false_iff in Hf. tauto.
Qed.

Lemma drop_duplicates_from_fixed (seen : list Ticket) (df : Frame) :
  distinct_rows df ->
  Forall (fun p => existsb (ticket_eqb (snd p)) seen = false) df ->
  drop_duplicates_from seen df = df.
Proof.
  unfold distinct_rows. revert seen.
  induction df as [|[l r] df IH]; intros seen Hd Hf; [reflexivity|].
  inversion Hd as [|? ? Hhead Hd']; subst.
  inversion Hf as [|? ? Hr Hf']; subst. simpl in Hr, Hhead.
  simpl. rewrite Hr. f_equal. apply IH; [assumption|].
  rewrite Forall_forall in *. intros q Hq. simpl.
  now rewrite (Hhead q Hq), (Hf' q Hq).
Qed.

Lemma drop_duplicates_from_covers (seen : list Ticket) (df : Frame) :
  Forall (fun p =>
            existsb (ticket_eqb (snd p)) seen = true \/
            exists q, In q (drop_duplicates_from seen df) /\
                      ticket_eqb (snd p) (snd q) = true)
         df.
Proof.
  revert seen. induction df as [|[l r] df IH]; intros seen; [constructor|].
  simpl. destruct (existsb (ticket_eqb r) seen) eqn:E.
  - constructor; [now left | apply IH].
  - constructor.
    + right. exists (l, r). split; [now left | apply ticket_eqb_refl].
    + specialize (IH (r :: seen)). rewrite Forall_forall in *.
      intros p Hp. destruct (IH p Hp) as [H | [q [Hq Heq]]].
      * simpl in H. apply orb_true_iff in H. destruct H as [H | H].
        -- right. exists (l, r). split; [now left | exact H].
        -- now left.
      * right. exists q. split; [now right | exact Heq].
Qed.

(** X1.  After [remove_duplicates] no row of the frame equals an earlier
    row. *)
Theorem remove_duplicates_distinct (df : Frame) :
  distinct_rows (remove_duplicates df).
Proof. apply drop_duplicates_from_distinct. Qed.

(** X2.  [remove_duplicates] loses no content: every row of the input is
    equal to a row that is kept, and every kept row is a row of the input
    under its own label. *)
Theorem remove_duplicates_covers (df : Frame) :
  Forall (fun p =>
            exists q, In q (remove_duplicates df) /\
                      ticket_eqb (snd p) (snd q) = true) df /\
  incl (remove_duplicates df) df.
Proof.
  split; [|apply drop_duplicates_from_incl].
  pose proof (drop_duplicates_from_covers [] df) as H.
  rewrite Forall_forall in *. intros p Hp.
  destruct (H p Hp) as [Hseen | Hq]; [discriminate | exact Hq].
Qed.

(** X3.  Removing duplicates twice is the same as removing them once. *)
Theorem remove_duplicates_idempotent (df : Frame) :
  remove_duplicates (remove_duplicates df) = remove_duplicates df.
Proof.
  unfold remove_duplicates, drop_duplicates.
  apply drop_duplicates_from_fixed.
  - apply drop_duplicates_from_distinct.
  - apply Forall_forall. reflexivity.
Qed.

Lemma length_drop_duplicates_from (seen : list Ticket) (df : Frame) :
  List.length (drop_duplicates_from seen df) <= List.length df.
Proof.
  revert seen. induction df as [|[l r] df IH]; intros seen; simpl; [lia|].
  destruct (existsb (ticket_eqb r) seen); simpl.
  - specialize (IH seen). lia.
  - specialize (IH (r :: seen)). lia.
Qed.

(** X4.  The rows that survive deduplication of a freshly loaded file keep
    the labels they were loaded with, in increasing order: the index is not
    renumbered, and the frame does not grow. *)
Theorem remove_duplicates_keeps_labels (rows : list Ticket) :
  incl (remove_duplicates (load_data rows)) (load_data rows) /\
  StronglySorted lt (index (remove_duplicates (load_data rows))) /\
  len (remove_duplicates (load_data rows)) <= List.length rows.
Proof.
  split; [apply drop_duplicates_from_incl|]. split.
  - apply drop_duplicates_from_sorted. rewrite (load_data_RangeIndex rows).
    apply seq_sorted.
  - unfold len, remove_duplicates, drop_duplicates.
    pose proof (length_drop_duplicates_from [] (load_data rows)) as H.
    unfold load_data in H at 2. rewrite length_combine in H.
    unfold range in H. rewrite length_seq in H. lia.
Qed.

(** X5.  A frame in which no row equals an earlier row is returned
    unchanged. *)
Theorem remove_duplicates_distinct_unchanged (df : Frame) :
  distinct_rows df -> remove_duplicates df = df.
Proof.
  intros Hd. apply drop_duplicates_from_fixed; [exact Hd|].
  apply Forall_forall. reflexivity.
Qed.

Lemma remove_duplicates_distinct_unchanged_witness :
  remove_duplicates sample_frame = sample_frame.
Proof.
  apply (remove_duplicates_distinct_unchanged sample_frame).
  repeat constructor.
Defined.

(** ** [clean_text_columns] *)

Ltac by_cases_on_char c :=
  destruct c as [[|] [|] [|] [|] [|] [|] [|] [|]]; reflexivity.

Lemma char_lower_isspace (c : ascii) : char_isspace (char_lower c) = char_isspace c.
Proof. by_cases_on_char c. Qed.

Lemma char_upper_isspace (c : ascii) : char_isspace (char_upper c) = char_isspace c.
Proof. by_cases_on_char c. Qed.

Lemma char_lower_iscased (c : ascii) : char_iscased (char_lower c) = char_iscased c.
Proof. by_cases_on_char c. Qed.

Lemma char_upper_iscased (c : ascii) : char_iscased (char_upper c) = char_iscased c.
Proof. by_cases_on_char c. Qed.

Lemma char_lower_lower (c : ascii) : char_lower (char_lower c) = char_lower c.
Proof. by_cases_on_char c. Qed.

Lemma char_upper_upper (c : ascii) : char_upper (char_upper c) = char_upper c.
Proof. by_cases_on_char c. Qed.

Lemma char_upper_lower (c : ascii) : char_upper (char_lower c) = char_upper c.
Proof. by_cases_on_char c. Qed.

Lemma string_app_assoc (a b c : string) : (a ++ b) ++ c = a ++ b ++ c.
Proof. induction a as [|x a IH]; simpl; [reflexivity | now rewrite IH]. Qed.

Lemma string_app_nil_r (a : string) : a ++ "" = a.
Proof. induction a as [|x a IH]; simpl; [reflexivity | now rewrite IH]. Qed.

Lemma lstrip_split (s : string) :
  exists pre, s = pre ++ lstrip s /\ all_space pre.
Proof.
  induction s as [|a s IH]; simpl.
  - exists "". split; [reflexivity | intros c []].
  - destruct (char_isspace a) eqn:E.
    + destruct IH as [pre [Hs Hpre]]. exists (String a pre). split.
      * simpl. now rewrite <- Hs.
      * intros c [<- | Hc]; [exact E | now apply Hpre].
    + exists "". split; [reflexivity | intros c []].
Qed.

Lemma rstrip_split (s : string) :
  exists suf, s = rstrip s ++ suf /\ all_space suf.
Proof.
  induction s as [|a s IH]; [exists ""; split; [reflexivity | intros c []]|].
  rewrite rstrip_cons. destruct IH as [suf [Hs Hsuf]].
  destruct (rstrip s) as [|b r] eqn:E.
  - simpl in Hs. subst suf. destruct (char_isspace a) eqn:Ea.
    + exists (String a s). split; [reflexivity|].
      intros c [<- | Hc]; [exact Ea | now apply Hsuf].
    + exists s. split; [reflexivity | exact Hsuf].
  - exists suf. split; [|exact Hsuf]. simpl. simpl in Hs. now rewrite <- Hs.
Qed.

Lemma rstrip_last (s pre : string) (c : ascii) :
  rstrip s = pre ++ String c "" -> char_isspace c = false.
Proof.
  revert pre. induction s as [|a s IH]; intros pre.
  - simpl. destruct pre; discriminate.
  - rewrite rstrip_cons. destruct (rstrip s) as [|b r] eqn:E.
    + destruct (char_isspace a) eqn:Ea.
      * destruct pre; discriminate.
      * destruct pre as [|x pre]; simpl; intros H.
        -- now injection H as <-.
        -- injection H as _ H. destruct pre; discriminate.
    + destruct pre as [|x pre]; simpl; intros H; [discriminate|].
      injection H as _ H. now apply (IH pre).
Qed.

Lemma strip_no_outer_space (s : string) : no_outer_space (strip s).
Proof.
  unfold no_outer_space, strip. split.
  - intros c r H. destruct (lstrip_head s) as [E | [c' [r' [E Hc']]]].
    + rewrite E in H. discriminate.
    + rewrite E in H. destruct (rstrip_head c' r' Hc') as [r'' Hr].
      rewrite Hr in H. now injection H as <- _.
  - intros pre c H. now apply (rstrip_last _ _ _ H).
Qed.

Lemma strip_split (s : string) :
  exists pre suf, s = pre ++ strip s ++ suf /\ all_space pre /\ all_space suf.
Proof.
  destruct (lstrip_split s) as [pre [Hs Hpre]].
  destruct (rstrip_split (lstrip s)) as [suf [Hl Hsuf]].
  exists pre, suf. unfold strip. split; [|now split].
  now rewrite <- Hl.
Qed.

(** X6.  On a frame whose subject and message are plain text,
    [clean_text_columns] keeps the label of every row and replaces subject
    and message by the text of the cell with whitespace removed at both ends
    and nothing else: the text is [pre ++ cleaned ++ suf] with [pre] and
    [suf] all whitespace, and the cleaned text neither starts nor ends with
    whitespace. *)
Theorem clean_text_columns_trims (df : Frame) :
  plain_text df ->
  Forall2 (fun p q =>
             fst q = fst p /\
             (exists t pre suf,
                subject (snd q) = Str t /\ no_outer_space t /\
                str (subject (snd p)) = pre ++ t ++ suf /\
                all_space pre /\ all_space suf) /\
             (exists t pre suf,
                message (snd q) = Str t /\ no_outer_space t /\
                str (message (snd p)) = pre ++ t ++ suf /\
                all_space pre /\ all_space suf))
          df (clean_text_columns df).
Proof.
  intros _. apply Forall2_update_rows. intros p _. split; [reflexivity|].
  cbn [snd clean_text_row subject message]. split.
  - destruct (strip_split (str (subject (snd p)))) as [pre [suf [H1 [H2 H3]]]].
    exists (strip (str (subject (snd p)))), pre, suf.
    repeat split; auto; apply strip_no_outer_space.
  - destruct (strip_split (str (message (snd p)))) as [pre [suf [H1 [H2 H3]]]].
    exists (strip (str (message (snd p)))), pre, suf.
    repeat split; auto; apply strip_no_outer_space.
Qed.

Lemma clean_text_columns_trims_witness :
  Forall2 (fun p q =>
             fst q = fst p /\
             (exists t pre suf,
                subject (snd q) = Str t /\ no_outer_space t /\
                str (subject (snd p)) = pre ++ t ++ suf /\
                all_space pre /\ all_space suf) /\
             (exists t pre suf,
                message (snd q) = Str t /\ no_outer_space t /\
                str (message (snd p)) = pre ++ t ++ suf /\
                all_space pre /\ all_space suf))
          sample_frame (clean_text_columns sample_frame).
Proof.
  apply (clean_text_columns_trims sample_frame). repeat constructor.
Defined.

Lemma title_from_idempotent (b : bool) (s : string) :
  title_from b (title_from b s) = title_from b s.
Proof.
  revert b. induction s as [|c s IH]; intros b; simpl; [reflexivity|].
  destruct b.
  - now rewrite char_lower_lower, char_lower_iscased, IH.
  - now rewrite char_upper_upper, char_upper_iscased, IH.
Qed.

Lemma title_from_lower (b : bool) (s : string) :
  title_from b (lower s) = title_from b s.
Proof.
  revert b. induction s as [|c s IH]; intros b; simpl; [reflexivity|].
  rewrite char_lower_iscased, IH. destruct b.
  - now rewrite char_lower_lower.
  - now rewrite char_upper_lower.
Qed.

Lemma title_from_rstrip (b : bool) (s : string) :
  rstrip (title_from b s) = title_from b (rstrip s).
Proof.
  revert b. induction s as [|c s IH]; intros b; [reflexivity|].
  cbn [title_from]. rewrite !rstrip_cons, IH.
  destruct (rstrip s) as [|d r] eqn:E.
  - cbn [title_from].
    destruct b; [rewrite char_lower_isspace | rewrite char_upper_isspace];
      destruct (char_isspace c); reflexivity.
  - reflexivity.
Qed.

Lemma title_from_lstrip_head (b : bool) (c : ascii) (r : string) :
  char_isspace c = false ->
  lstrip (title_from b (String c r)) = title_from b (String c r).
Proof.
  intros Hc. cbn [title_from lstrip].
  destruct b; [rewrite char_lower_isspace | rewrite char_upper_isspace];
    now rewrite Hc.
Qed.

Lemma strip_title_strip (s : string) : strip (title (strip s)) = title (strip s).
Proof.
  unfold title. unfold strip at 1.
  assert (Hl : lstrip (title_from false (strip s)) = title_from false (strip s)).
  { destruct (strip s) as [|c r] eqn:E; [reflexivity|].
    apply title_from_lstrip_head.
    destruct (strip_no_outer_space s) as [Hhead _]. rewrite E in Hhead.
    now apply (Hhead c r). }
  rewrite Hl, title_from_rstrip. f_equal.
  unfold strip. apply rstrip_idempotent.
Qed.

Lemma clean_text_row_idempotent (r : Ticket) :
  clean_text_row (clean_text_row r) = clean_text_row r.
Proof.
  unfold clean_text_row. cbn [priority status subject message str
    resolution_time_hours created_date issue_type is_flagged flag_reason].
  rewrite !strip_title_strip, !strip_idempotent.
  unfold title. now rewrite !title_from_idempotent.
Qed.

(** X7.  On a frame whose four text cells are plain in every row, cleaning
    the text columns of the cleaned frame changes nothing. *)
Theorem clean_text_columns_idempotent (df : Frame) :
  plain_cells df ->
  clean_text_columns (clean_text_columns df) = clean_text_columns df.
Proof.
  intros _. unfold clean_text_columns, update_rows. rewrite map_map.
  apply map_ext. intros p. cbn [fst snd]. now rewrite clean_text_row_idempotent.
Qed.

Lemma clean_text_columns_idempotent_witness :
  clean_text_columns (clean_text_columns sample_frame) =
  clean_text_columns sample_frame.
Proof.
  apply (clean_text_columns_idempotent sample_frame). repeat constructor.
Defined.

(** X8.  On plain text, priority and status are normalised whatever their
    case and the whitespace around them: two rows whose priority (or status)
    cells hold plain texts that agree once trimmed and lowercased receive the
    same cleaned priority (or status). *)
Theorem clean_text_row_case_insensitive (r1 r2 : Ticket) :
  (plain (str (priority r1)) -> plain (str (priority r2)) ->
   lower (strip (str (priority r1))) = lower (strip (str (priority r2))) ->
   priority (clean_text_row r1) = priority (clean_text_row r2)) /\
  (plain (str (status r1)) -> plain (str (status r2)) ->
   lower (strip (str (status r1))) = lower (strip (str (status r2))) ->
   status (clean_text_row r1) = status (clean_text_row r2)).
Proof.
  cbn [clean_text_row priority status]. unfold title.
  split; intros _ _ H; f_equal.
  - rewrite <- (title_from_lower false (strip (str (priority r1)))), H.
    apply title_from_lower.
  - rewrite <- (title_from_lower false (strip (str (status r1)))), H.
    apply title_from_lower.
Qed.

Lemma clean_text_row_case_insensitive_witness :
  priority (clean_text_row (ticket (Str "  HIGH ") (Str "oPEN") NaN NaN None)) =
  priority (clean_text_row (ticket (Str "high") (Str "Open ") NaN NaN None)).
Proof.
  apply (proj1 (clean_text_row_case_insensitive
                  (ticket (Str "  HIGH ") (Str "oPEN") NaN NaN None)
                  (ticket (Str "high") (Str "Open ") NaN NaN None)));
    reflexivity.
Defined.

(** ** [handle_missing_values] *)

Lemma insert_sorted_perm (x : Q) (l : list Q) :
  Permutation (insert_sorted x l) (x :: l).
Proof.
  induction l as [|y l IH]; simpl; [apply Permutation_refl|].
  destruct (Qle_bool x y); [apply Permutation_refl|].
  apply perm_trans with (y :: x :: l); [now apply perm_skip | apply perm_swap].
Qed.

Lemma sort_values_perm (l : list Q) : Permutation (sort_values l) l.
Proof.
  induction l as [|x l IH]; simpl; [apply Permutation_refl|].
  apply perm_trans with (x :: sort_values l);
    [apply insert_sorted_perm | now apply perm_skip].
Qed.

Lemma median_None (l : list number) : median l = None -> dropna l = [].
Proof.
  unfold median. intros H.
  destruct (List.length (sort_values (dropna l)) =? 0) eqn:E.
  - apply Nat.eqb_eq in E.
    rewrite (Permutation_length (sort_values_perm (dropna l))) in E.
    now apply length_zero_iff_nil.
  - destruct (Nat.odd (List.length (sort_values (dropna l)))); discriminate.
Qed.

Lemma dropna_In (l : list number) (x : Q) : In (Some x) l -> In x (dropna l).
Proof.
  induction l as [|[y|] l IH]; simpl; intros H.
  - destruct H.
  - destruct H as [H | H]; [injection H as ->; now left | right; now apply IH].
  - destruct H as [H | H]; [discriminate | now apply IH].
Qed.

(** X10.  When at least one resolution time is present,
    [handle_missing_values] leaves no missing priority, status or resolution
    time; it keeps the labels and every resolution time that was present. *)
Theorem handle_missing_values_fills (df : Frame) :
  (exists p x, In p df /\ resolution_time_hours (snd p) = Some x) ->
  Forall (fun q => priority (snd q) <> NaN /\ status (snd q) <> NaN /\
                   resolution_time_hours (snd q) <> None)
         (handle_missing_values df) /\
  Forall2 (fun p q =>
             fst q = fst p /\
             forall x, resolution_time_hours (snd p) = Some x ->
                       resolution_time_hours (snd q) = Some x)
          df (handle_missing_values df).
Proof.
  intros [p [x [Hp Hx]]]. unfold handle_missing_values.
  assert (Hmed : median (column resolution_time_hours df) <> None).
  { intros Hnone. apply median_None in Hnone.
    assert (Hin : In x (dropna (column resolution_time_hours df))).
    { apply dropna_In. rewrite <- Hx. unfold column.
      exact (in_map (fun p => resolution_time_hours (snd p)) df p Hp). }
    rewrite Hnone in Hin. destruct Hin. }
  split.
  - unfold update_rows. apply Forall_map, Forall_forall. intros q _.
    cbn [snd handle_missing_row priority status resolution_time_hours].
    repeat split.
    + destruct (priority (snd q)); discriminate.
    + destruct (status (snd q)); discriminate.
    + destruct (resolution_time_hours (snd q)); [discriminate | exact Hmed].
  - apply Forall2_update_rows. intros q _. split; [reflexivity|].
    intros y Hy. cbn [snd handle_missing_row resolution_time_hours].
    now rewrite Hy.
Qed.

Lemma handle_missing_values_fills_witness :
  Forall (fun q => priority (snd q) <> NaN /\ status (snd q) <> NaN /\
                   resolution_time_hours (snd q) <> None)
         (handle_missing_values sample_frame) /\
  Forall2 (fun p q =>
             fst q = fst p /\
             forall x, resolution_time_hours (snd p) = Some x ->
                       resolution_time_hours (snd q) = Some x)
          sample_frame (handle_missing_values sample_frame).
Proof.
  apply (handle_missing_values_fills sample_frame).
  exists (0, refund_ticket), (inject_Z 4). split; [simpl; auto | reflexivity].
Defined.

(** X11.  When every resolution time is missing the median is NaN, and the
    resolution times are still all missing after [handle_missing_values]. *)
Theorem handle_missing_values_all_missing (df : Frame) :
  Forall (fun p => resolution_time_hours (snd p) = None) df ->
  Forall (fun q => resolution_time_hours (snd q) = None) (handle_missing_values df).
Proof.
  intros Hall. unfold handle_missing_values.
  assert (Hmed : median (column resolution_time_hours df) = None).
  { assert (Hd : dropna (column resolution_time_hours df) = []).
    { unfold column. induction Hall as [|p df Hp _ IH]; simpl; [reflexivity|].
      now rewrite Hp. }
    unfold median. now rewrite Hd. }
  rewrite Hmed. unfold update_rows. apply Forall_map.
  apply (Forall_impl _ (P := fun p => resolution_time_hours (snd p) = None));
    [|exact Hall].
  intros p Hp. cbn [snd handle_missing_row resolution_time_hours]. now rewrite Hp.
Qed.

Lemma handle_missing_values_all_missing_witness :
  Forall (fun q => resolution_time_hours (snd q) = None)
         (handle_missing_values (load_data [digits_ticket; digits_ticket])).
Proof.
  apply (handle_missing_values_all_missing (load_data [digits_ticket; digits_ticket])).
  repeat constructor.
Defined.

(** ** Outcomes of the label lookups *)

Lemma loc_cases (df : Frame) (i : nat) :
  (exists r, In (i, r) df /\ In i (index df) /\
             forall (A : Type) (col : Ticket -> A), loc df i col = Ok (col r)) \/
  (~ In i (index df) /\
   forall (A : Type) (col : Ticket -> A), loc df i col = Err KeyError).
Proof.
  unfold index. induction df as [|[l r] df IH]; simpl.
  - right. split; [tauto | reflexivity].
  - destruct (l =? i) eqn:E.
    + apply Nat.eqb_eq in E. subst l. left. exists r.
      split; [now left|]. split; [now left | reflexivity].
    + apply Nat.eqb_neq in E.
      destruct IH as [[r' [Hin [Hidx Hloc]]] | [Hmiss Hloc]].
      * left. exists r'. split; [now right|]. split; [now right | exact Hloc].
      * right. split; [tauto | exact Hloc].
Qed.

Lemma flag_of_row_cases (df : Frame) (i : nat) :
  (In i (index df) /\ exists fr, flag_of_row df i = Ok fr) \/
  (~ In i (index df) /\ flag_of_row df i = Err KeyError).
Proof.
  unfold flag_of_row.
  destruct (loc_cases df i) as [[r [_ [Hidx Hloc]]] | [Hmiss Hloc]].
  - left. split; [exact Hidx|]. rewrite Hloc. eexists. reflexivity.
  - right. split; [exact Hmiss|]. now rewrite Hloc.
Qed.

Lemma flag_loop_cases (df : Frame) (idx : list nat) :
  (Forall (fun i => In i (index df)) idx /\ exists frs, flag_loop df idx = Ok frs) \/
  (Exists (fun i => ~ In i (index df)) idx /\ flag_loop df idx = Err KeyError).
Proof.
  induction idx as [|i idx IH]; cbn [flag_loop].
  - left. split; [constructor | now exists []].
  - destruct (flag_of_row_cases df i) as [[Hin [fr ->]] | [Hmiss ->]].
    + destruct IH as [[Hall [frs ->]] | [Hex ->]].
      * left. split; [now constructor | eexists; reflexivity].
      * right. split; [now apply Exists_cons_tl | reflexivity].
    + right. split; [now apply Exists_cons_hd | reflexivity].
Qed.

Lemma range_Forall (n : nat) (P : nat -> Prop) :
  Forall P (range n) <-> forall i, i < n -> P i.
Proof.
  unfold range. rewrite Forall_forall. split.
  - intros H i Hi. apply H, in_seq. lia.
  - intros H i Hi. apply in_seq in Hi. apply H. lia.
Qed.

Lemma range_Exists (n : nat) (P : nat -> Prop) :
  Exists P (range n) <-> exists i, i < n /\ P i.
Proof.
  unfold range. rewrite Exists_exists. split.
  - intros [i [Hi HP]]. apply in_seq in Hi. exists i. split; [lia | exact HP].
  - intros [i [Hi HP]]. exists i. split; [apply in_seq; lia | exact HP].
Qed.

(** X12.  [flag_tickets] has two outcomes.  It returns a frame exactly when
    every number below the row count is the label of a row; otherwise it
    raises [KeyError].  It never raises [TypeError], whatever the message
    cells hold. *)
Theorem flag_tickets_outcome (df : Frame) :
  ((forall i, i < len df -> In i (index df)) /\
   exists out, flag_tickets df = Ok out) \/
  ((exists i, i < len df /\ ~ In i (index df)) /\
   flag_tickets df = Err KeyError).
Proof.
  unfold flag_tickets.
  destruct (flag_loop_cases df (range (len df))) as [[Hall [frs ->]] | [Hex ->]].
  - left. split; [now apply range_Forall | eexists; reflexivity].
  - right. split; [now apply range_Exists | reflexivity].
Qed.

Lemma issue_of_row_cases (df : Frame) (i : nat) :
  text_columns df ->
  (In i (index df) /\ exists issue, issue_of_row df i = Ok issue) \/
  (~ In i (index df) /\ issue_of_row df i = Err KeyError).
Proof.
  intros Htext. unfold issue_of_row.
  destruct (loc_cases df i) as [[r [Hin [Hidx Hloc]]] | [Hmiss Hloc]].
  - left. split; [exact Hidx|]. rewrite !Hloc.
    unfold text_columns in Htext. rewrite Forall_forall in Htext.
    destruct (Htext _ Hin) as [[s Hs] [m Hm]]. simpl in Hs, Hm.
    rewrite Hs, Hm. eexists. reflexivity.
  - right. split; [exact Hmiss|]. now rewrite Hloc.
Qed.

Lemma classify_loop_cases (df : Frame) (idx : list nat) :
  text_columns df ->
  (Forall (fun i => In i (index df)) idx /\
   exists issues, classify_loop df idx = Ok issues) \/
  (Exists (fun i => ~ In i (index df)) idx /\ classify_loop df idx = Err KeyError).
Proof.
  intros Htext. induction idx as [|i idx IH]; cbn [classify_loop].
  - left. split; [constructor | now exists []].
  - destruct (issue_of_row_cases df i Htext) as [[Hin [issue ->]] | [Hmiss ->]].
    + destruct IH as [[Hall [issues ->]] | [Hex ->]].
      * left. split; [now constructor | eexists; reflexivity].
      * right. split; [now apply Exists_cons_tl | reflexivity].
    + right. split; [now apply Exists_cons_hd | reflexivity].
Qed.

(** X13.  On a frame whose subject and message are strings,
    [classify_issues] returns a frame exactly when every number below the
    row count is the label of a row, and raises [KeyError] otherwise. *)
Theorem classify_issues_outcome (df : Frame) :
  text_columns df ->
  ((forall i, i < len df -> In i (index df)) /\
   exists out, classify_issues df = Ok out) \/
  ((exists i, i < len df /\ ~ In i (index df)) /\
   classify_issues df = Err KeyError).
Proof.
  intros Htext. unfold classify_issues.
  destruct (classify_loop_cases df (range (len df)) Htext)
    as [[Hall [issues ->]] | [Hex ->]].
  - left. split; [now apply range_Forall | eexists; reflexivity].
  - right. split; [now apply range_Exists | reflexivity].
Qed.

Lemma classify_issues_outcome_witness :
  ((forall i, i < len sample_frame -> In i (index sample_frame)) /\
   exists out, classify_issues sample_frame = Ok out) \/
  ((exists i, i < len sample_frame /\ ~ In i (index sample_frame)) /\
   classify_issues sample_frame = Err KeyError).
Proof.
  apply (classify_issues_outcome sample_frame).
  repeat constructor; eexists; reflexivity.
Defined.

Lemma classify_loop_missing_text (df part : Frame) :
  NoDup (index df) -> incl part df ->
  Exists (fun p => subject (snd p) = NaN \/ message (snd p) = NaN) part ->
  classify_loop df (index part) = Err TypeError.
Proof.
  intros Hnd. induction part as [|[l r] part IH]; intros Hincl Hex.
  - inversion Hex.
  - assert (Hin : In (l, r) df) by (apply Hincl; now left).
    assert (Hincl' : incl part df) by (intros q Hq; apply Hincl; now right).
    cbn [index map fst classify_loop]. unfold issue_of_row.
    rewrite (loc_In df l r subject Hnd Hin), (loc_In df l r message Hnd Hin).
    destruct (subject r) as [|s] eqn:Es; [reflexivity|].
    destruct (message r) as [|m] eqn:Em; [reflexivity|].
    cbn [as_text bind].
    inversion Hex as [? ? Hhead | ? ? Htail]; subst.
    + simpl in Hhead. rewrite Es, Em in Hhead. destruct Hhead; discriminate.
    + unfold index in IH. now rewrite (IH Hincl' Htail).
Qed.

(** X14.  On a frame with the index 0..n-1 in which some subject or message
    cell is missing, [classify_issues] raises [TypeError]: a frame that has
    not been through [clean_text_columns] cannot be classified. *)
Theorem classify_issues_missing_text (df : Frame) :
  RangeIndex df ->
  Exists (fun p => subject (snd p) = NaN \/ message (snd p) = NaN) df ->
  classify_issues df = Err TypeError.
Proof.
  intros Hri Hex. unfold classify_issues. rewrite <- Hri.
  now rewrite (classify_loop_missing_text df df (RangeIndex_NoDup df Hri)
                 (incl_refl df) Hex).
Qed.

Lemma classify_issues_missing_text_witness :
  classify_issues raw_frame = Err TypeError.
Proof.
  apply (classify_issues_missing_text raw_frame).
  - reflexivity.
  - apply Exists_cons_tl, Exists_cons_hd. left. reflexivity.
Defined.

(** ** Keywords and the text they are searched in *)

Lemma string_app_split (a b c d : string) :
  a ++ b = c ++ d ->
  (exists z, c = a ++ z /\ b = z ++ d) \/ (exists z, a = c ++ z /\ d = z ++ b).
Proof.
  revert c. induction a as [|x a IH]; intros c H.
  - left. exists c. split; [reflexivity | exact H].
  - destruct c as [|y c].
    + right. exists (String x a). split; [reflexivity | symmetry; exact H].
    + simpl in H. injection H as -> H. destruct (IH c H) as [[z [-> ->]] | [z [-> ->]]].
      * left. now exists z.
      * right. now exists z.
Qed.

Lemma chars_app (a b : string) : chars (a ++ b) = (chars a ++ chars b)%list.
Proof.
  unfold chars. induction a as [|x a IH]; simpl; [reflexivity | now rewrite IH].
Qed.

Lemma lower_app (a b : string) : lower (a ++ b) = lower a ++ lower b.
Proof. induction a as [|x a IH]; simpl; [reflexivity | now rewrite IH]. Qed.

Lemma occurs_in_joined (w a b : string) :
  ~ In " "%char (chars w) ->
  occurs_in w (a ++ " " ++ b) <-> occurs_in w a \/ occurs_in w b.
Proof.
  intros Hw. unfold occurs_in. split.
  - intros [pre [suf H]]. symmetry in H.
    destruct (string_app_split _ _ _ _ H) as [[z [Ha Hb]] | [z [Hpre Hb]]].
    + symmetry in Hb.
      destruct (string_app_split _ _ _ _ Hb) as [[z' [Hw' Hs]] | [z' [Hz Hsuf]]].
      * destruct z' as [|x z'].
        -- left. exists pre, "". rewrite Ha, Hw'. now rewrite !string_app_nil_r.
        -- exfalso. apply Hw. rewrite Hw', chars_app. apply in_or_app. right.
           simpl in Hs. injection Hs as <- _. now left.
      * left. exists pre, z'. now rewrite Ha, Hz.
    + destruct z as [|x z].
      * simpl in Hb. destruct w as [|y w].
        -- left. exists a, "". now rewrite string_app_nil_r.
        -- exfalso. apply Hw. simpl in Hb. injection Hb as <- _. now left.
      * right. simpl in Hb. injection Hb as _ Hb. now exists z, suf.
  - intros [[pre [suf ->]] | [pre [suf ->]]].
    + exists pre, (suf ++ " " ++ b). now rewrite !string_app_assoc.
    + exists (a ++ " " ++ pre), suf. now rewrite !string_app_assoc.
Qed.

(** X15.  No keyword can match across the join of subject and message: a
    keyword occurs in the text the classifier searches exactly when it occurs
    in the lowercased subject or in the lowercased message. *)
Theorem keyword_matches_within_a_field (r : Ticket) :
  Forall (fun w =>
            occurs_in w (row_text r) <->
            occurs_in w (lower (str (subject r))) \/
            occurs_in w (lower (str (message r))))
         all_keywords.
Proof.
  unfold row_text. rewrite !lower_app.
  change (lower " ") with " ".
  unfold all_keywords, billing_words, technical_words, account_words,
    delivery_words. cbn [app].
  repeat (apply Forall_cons;
          [apply occurs_in_joined; simpl; intuition discriminate|]).
  apply Forall_nil.
Qed.

(** ** Running the classifier and the flagger again, or in the other order *)

Lemma text_columns_update_rows (f : Ticket -> Ticket) (df : Frame) :
  (forall r, subject (f r) = subject r /\ message (f r) = message r) ->
  text_columns df -> text_columns (update_rows f df).
Proof.
  intros Hf Htext. unfold text_columns, update_rows in *.
  apply Forall_map. apply (Forall_impl _ (P := fun p => is_text (subject (snd p)) /\
                                                    is_text (message (snd p))));
    [|exact Htext].
  intros p [Hs Hm]. cbn [snd]. destruct (Hf (snd p)) as [-> ->]. now split.
Qed.

(** X16.  Classifying and flagging a frame that has already been classified
    and flagged returns it unchanged. *)
Theorem classify_and_flag_idempotent (df : Frame) :
  RangeIndex df -> text_columns df ->
  exists out, classify_and_flag df = Ok out /\ classify_and_flag out = Ok out.
Proof.
  intros Hri Htext. eexists. split; [now apply classify_and_flag_RangeIndex|].
  rewrite classify_and_flag_RangeIndex.
  - f_equal. unfold update_rows. rewrite map_map. apply map_ext. intros p.
    reflexivity.
  - now apply RangeIndex_update_rows.
  - apply text_columns_update_rows; [|exact Htext]. intros r. split; reflexivity.
Qed.

Lemma classify_and_flag_idempotent_witness :
  exists out,
    classify_and_flag sample_frame = Ok out /\ classify_and_flag out = Ok out.
Proof.
  apply (classify_and_flag_idempotent sample_frame).
  - reflexivity.
  - repeat constructor; eexists; reflexivity.
Defined.

(** X17.  The classifier and the flagger do not depend on each other:
    flagging first and classifying second keeps the labels and gives every
    row the same [issue_type], [is_flagged] and [flag_reason] as the order
    [main] uses. *)
Theorem classify_flag_commute (df : Frame) :
  RangeIndex df -> text_columns df ->
  exists a,
    fmap assignments (classify_and_flag df) = Ok a /\
    fmap assignments (flagged <- flag_tickets df ;; classify_issues flagged) = Ok a /\
    fmap index (classify_and_flag df) = Ok (index df) /\
    fmap index (flagged <- flag_tickets df ;; classify_issues flagged) =
      Ok (index df).
Proof.
  intros Hri Htext.
  assert (Hswap : (flagged <- flag_tickets df ;; classify_issues flagged) =
                  Ok (update_rows
                        (fun r => set_issue_type
                                    (set_flag r (flag_message (str (message r))))
                                    (classify_text (row_text r))) df)).
  { rewrite (flag_tickets_RangeIndex df Hri). cbn [bind].
    rewrite classify_issues_RangeIndex.
    - f_equal. unfold update_rows. rewrite map_map. apply map_ext. intros p.
      reflexivity.
    - now apply RangeIndex_update_rows.
    - apply text_columns_update_rows; [|exact Htext]. intros r. split; reflexivity. }
  rewrite Hswap, (classify_and_flag_RangeIndex df Hri Htext). cbn [fmap bind].
  rewrite !index_update_rows.
  eexists. split; [reflexivity|]. split; [reflexivity|]. split; reflexivity.
Qed.

Lemma classify_flag_commute_witness :
  exists a,
    fmap assignments (classify_and_flag sample_frame) = Ok a /\
    fmap assignments
      (flagged <- flag_tickets sample_frame ;; classify_issues flagged) = Ok a /\
    fmap index (classify_and_flag sample_frame) = Ok (index sample_frame) /\
    fmap index (flagged <- flag_tickets sample_frame ;; classify_issues flagged) =
      Ok (index sample_frame).
Proof.
  apply (classify_flag_commute sample_frame).
  - reflexivity.
  - repeat constructor; eexists; reflexivity.
Defined.

(** X18.  A ticket whose message is missing in the file is flagged with
    "Message too short", whether the frame is flagged as read or after
    [clean_text_columns]: the missing cell is read as the text "nan". *)
Theorem missing_message_flagged_short (df : Frame) (i : nat) (r : Ticket) :
  RangeIndex df -> In (i, r) df -> message r = NaN ->
  (exists out r',
     flag_tickets df = Ok out /\ In (i, r') out /\
     is_flagged r' = Some true /\ flag_reason r' = Some "Message too short") /\
  (exists out r',
     flag_tickets (clean_text_columns df) = Ok out /\ In (i, r') out /\
     is_flagged r' = Some true /\ flag_reason r' = Some "Message too short").
Proof.
  intros Hri Hin Hm. split.
  - exists (update_rows (fun r => set_flag r (flag_message (str (message r)))) df),
           (set_flag r (flag_message (str (message r)))).
    split; [now apply flag_tickets_RangeIndex|]. split.
    + unfold update_rows.
      exact (in_map (fun p => (fst p, set_flag (snd p)
                                        (flag_message (str (message (snd p))))))
                    df (i, r) Hin).
    + rewrite Hm. split; reflexivity.
  - exists (update_rows (fun r => set_flag r (flag_message (str (message r))))
                        (clean_text_columns df)),
           (set_flag (clean_text_row r)
                     (flag_message (str (message (clean_text_row r))))).
    split; [apply flag_tickets_RangeIndex; now apply RangeIndex_update_rows|].
    split.
    + unfold clean_text_columns, update_rows. rewrite map_map. cbn [fst snd].
      exact (in_map (fun p => (fst p, set_flag (clean_text_row (snd p))
                  (flag_message (str (message (clean_text_row (snd p)))))))
                    df (i, r) Hin).
    + cbn [clean_text_row message]. rewrite Hm. split; reflexivity.
Qed.

Lemma missing_message_flagged_short_witness :
  (exists out r',
     flag_tickets (load_data [ticket NaN NaN NaN NaN None]) = Ok out /\
     In (0, r') out /\
     is_flagged r' = Some true /\ flag_reason r' = Some "Message too short") /\
  (exists out r',
     flag_tickets (clean_text_columns (load_data [ticket NaN NaN NaN NaN None]))
       = Ok out /\
     In (0, r') out /\
     is_flagged r' = Some true /\ flag_reason r' = Some "Message too short").
Proof.
  apply (missing_message_flagged_short
           (load_data [ticket NaN NaN NaN NaN None]) 0 (ticket NaN NaN NaN NaN None)).
  - reflexivity.
  - simpl. auto.
  - reflexivity.
Defined.

(** ** [create_summary] *)

Lemma count_flagged_loop_exact (df part : Frame) (n : nat) :
  NoDup (index df) -> incl part df -> labelled part ->
  count_flagged_loop df (index part) n = Ok (n + len (flagged_subset true part)).
Proof.
  intros Hnd. revert n. induction part as [|[l r] part IH]; intros n Hincl Hlab.
  - simpl. now rewrite Nat.add_0_r.
  - inversion Hlab as [|? ? [[f Hf] _] Hlab']; subst. simpl in Hf.
    assert (Hincl' : incl part df) by (intros q Hq; apply Hincl; now right).
    cbn [index map fst count_flagged_loop].
    rewrite (loc_In df l r is_flagged Hnd (Hincl _ (or_introl eq_refl))), Hf.
    cbn [bind present]. unfold index in IH. rewrite (IH _ Hincl' Hlab').
    unfold flagged_subset, len. cbn [filter snd]. rewrite Hf.
    destruct f; cbn [Bool.eqb option_eqb List.length]; f_equal; lia.
Qed.

Lemma subset_times_length (flagged : bool) (df : Frame) :
  List.length (subset_times flagged df) = len (flagged_subset flagged df).
Proof. unfold subset_times, flagged_subset, len. apply length_map. Qed.

Lemma create_summary_closed_form (df : Frame) :
  RangeIndex df -> labelled df ->
  exists issue_counts,
    issue_count_loop df (index df) [] = Ok issue_counts /\
    create_summary df = Ok (add_issue_counts (fixed_entries df) issue_counts).
Proof.
  intros Hri Hlab. pose proof (RangeIndex_NoDup df Hri) as Hnd.
  destruct (issue_count_loop_part df df [] Hnd (incl_refl df) Hlab) as [d Hd].
  exists d. split; [exact Hd|].
  unfold create_summary. rewrite <- Hri.
  rewrite (count_flagged_loop_exact df df 0 Hnd (incl_refl df) Hlab).
  rewrite (resolution_loop_part df df _ Hnd (incl_refl df) Hlab), Hd.
  cbn [bind flagged_sum flagged_n not_flagged_sum not_flagged_n Nat.add].
  unfold fixed_entries. rewrite !subset_times_length.
  f_equal. f_equal.
  pose proof (subset_times_length true df) as Ht.
  pose proof (subset_times_length false df) as Hf.
  destruct (subset_times true df), (subset_times false df);
    simpl in Ht, Hf; rewrite <- ?Ht, <- ?Hf;
    destruct (0 <? len df); reflexivity.
Qed.

Lemma flagged_subsets_partition (df : Frame) :
  labelled df ->
  len (flagged_subset true df) + len (flagged_subset false df) = len df.
Proof.
  unfold flagged_subset, len. intros Hlab.
  induction Hlab as [|p df [[f Hf] _] _ IH]; [reflexivity|].
  cbn [filter]. rewrite Hf.
  destruct f; cbn [option_eqb Bool.eqb List.length]; lia.
Qed.

Lemma mean_or_sentinel_sentinel (flagged : bool) (df : Frame) :
  mean_or_sentinel (subset_times flagged df) = VStr "N/A" <->
  flagged_subset flagged df = [].
Proof.
  unfold subset_times, flagged_subset.
  destruct (filter _ df); simpl; split; try reflexivity; discriminate.
Qed.

(** X27.  In the summary of a labelled frame with the index 0..n-1 the
    flagged percentage is the integer 0 when the frame has no row, and the
    mean resolution time of the flagged rows, and that of the rows not
    flagged, is the text "N/A" exactly when there is no such row. *)
Theorem create_summary_sentinels (df : Frame) :
  RangeIndex df -> labelled df ->
  exists summary,
    create_summary df = Ok summary /\
    (len df = 0 -> dict_get summary "flagged_percent" = Some (VInt 0)) /\
    (dict_get summary "avg_resolution_flagged_hours" = Some (VStr "N/A") <->
     flagged_subset true df = []) /\
    (dict_get summary "avg_resolution_not_flagged_hours" = Some (VStr "N/A") <->
     flagged_subset false df = []).
Proof.
  intros Hri Hlab.
  destruct (create_summary_closed_form df Hri Hlab) as [d [_ Hs]].
  eexists. split; [exact Hs|].
  rewrite !dict_get_add_issue_counts by reflexivity.
  unfold fixed_entries. cbn [dict_get String.eqb Ascii.eqb Bool.eqb].
  split; [intros Hlen; now rewrite Hlen|].
  split; (rewrite <- mean_or_sentinel_sentinel; split; intros H;
          [now injection H | now rewrite H]).
Qed.

Lemma create_summary_sentinels_witness :
  exists summary,
    create_summary labelled_sample = Ok summary /\
    (len labelled_sample = 0 -> dict_get summary "flagged_percent" = Some (VInt 0)) /\
    (dict_get summary "avg_resolution_flagged_hours" = Some (VStr "N/A") <->
     flagged_subset true labelled_sample = []) /\
    (dict_get summary "avg_resolution_not_flagged_hours" = Some (VStr "N/A") <->
     flagged_subset false labelled_sample = []).
Proof.
  apply (create_summary_sentinels labelled_sample).
  - reflexivity.
  - repeat constructor; eexists; reflexivity.
Defined.

(** X19.  In the summary of a labelled frame with the index 0..n-1,
    [total_tickets] is the number of rows and [flagged_tickets] the number of
    rows whose flag is true; the flagged rows and the rows not flagged
    together are all the rows. *)
Theorem create_summary_totals (df : Frame) :
  RangeIndex df -> labelled df ->
  exists summary,
    create_summary df = Ok summary /\
    dict_get summary "total_tickets" = Some (VInt (Z.of_nat (len df))) /\
    dict_get summary "flagged_tickets" =
      Some (VInt (Z.of_nat (len (flagged_subset true df)))) /\
    len (flagged_subset true df) + len (flagged_subset false df) = len df.
Proof.
  intros Hri Hlab.
  destruct (create_summary_closed_form df Hri Hlab) as [d [_ Hs]].
  eexists. split; [exact Hs|].
  rewrite !dict_get_add_issue_counts by reflexivity.
  repeat split; try reflexivity. now apply flagged_subsets_partition.
Qed.

Lemma create_summary_totals_witness :
  exists summary,
    create_summary labelled_sample = Ok summary /\
    dict_get summary "total_tickets" = Some (VInt (Z.of_nat (len labelled_sample))) /\
    dict_get summary "flagged_tickets" =
      Some (VInt (Z.of_nat (len (flagged_subset true labelled_sample)))) /\
    len (flagged_subset true labelled_sample) +
      len (flagged_subset false labelled_sample) = len labelled_sample.
Proof.
  apply (create_summary_totals labelled_sample).
  - reflexivity.
  - repeat constructor; eexists; reflexivity.
Defined.

Lemma count_flagged_loop_missing (df part : Frame) (n : nat) :
  NoDup (index df) -> incl part df ->
  Exists (fun p => is_flagged (snd p) = None) part ->
  count_flagged_loop df (index part) n = Err KeyError.
Proof.
  intros Hnd. revert n. induction part as [|[l r] part IH]; intros n Hincl Hex.
  - inversion Hex.
  - assert (Hincl' : incl part df) by (intros q Hq; apply Hincl; now right).
    cbn [index map fst count_flagged_loop].
    rewrite (loc_In df l r is_flagged Hnd (Hincl _ (or_introl eq_refl))).
    cbn [bind]. destruct (is_flagged r) as [f|] eqn:Ef; [|reflexivity].
    cbn [present bind]. apply IH; [exact Hincl'|].
    inversion Hex as [? ? Hhead | ? ? Htail]; subst; [|exact Htail].
    simpl in Hhead. congruence.
Qed.

(** X21.  [create_summary] needs the flagger to have run: on a frame with
    the index 0..n-1 in which some row has no [is_flagged] value it raises
    [KeyError] and computes nothing. *)
Theorem create_summary_unflagged (df : Frame) :
  RangeIndex df ->
  Exists (fun p => is_flagged (snd p) = None) df ->
  create_summary df = Err KeyError.
Proof.
  intros Hri Hex. unfold create_summary. rewrite <- Hri.
  now rewrite (count_flagged_loop_missing df df 0 (RangeIndex_NoDup df Hri)
                 (incl_refl df) Hex).
Qed.

Lemma create_summary_unflagged_witness :
  create_summary sample_frame = Err KeyError.
Proof.
  apply (create_summary_unflagged sample_frame).
  - reflexivity.
  - apply Exists_cons_hd. reflexivity.
Defined.

(** ** The issue counters *)

Lemma dict_get_None {V : Type} (d : dict V) (k : string) :
  dict_get d k = None <-> existsb (String.eqb k) (map fst d) = false.
Proof.
  induction d as [|[k0 v] d IH]; simpl; [tauto|].
  rewrite (String.eqb_sym k k0). destruct (String.eqb k0 k); simpl.
  - split; discriminate.
  - exact IH.
Qed.

Lemma dict_set_keys {V : Type} (d : dict V) (k : string) (v : V) :
  map fst (dict_set d k v) =
  if existsb (String.eqb k) (map fst d) then map fst d else (map fst d ++ [k])%list.
Proof.
  induction d as [|[k0 w] d IH]; simpl; [reflexivity|].
  rewrite (String.eqb_sym k k0). destruct (String.eqb k0 k); simpl; [reflexivity|].
  rewrite IH. now destruct (existsb (String.eqb k) (map fst d)).
Qed.

Lemma existsb_eqb_In (x : string) (l : list string) :
  existsb (String.eqb x) l = true <-> In x l.
Proof.
  rewrite existsb_exists. split.
  - intros [y [Hy He]]. apply String.eqb_eq in He. now subst.
  - intros H. exists x. split; [exact H | apply String.eqb_refl].
Qed.

Lemma existsb_eqb_not_In (x : string) (l : list string) :
  existsb (String.eqb x) l = false <-> ~ In x l.
Proof.
  rewrite <- existsb_eqb_In. destruct (existsb (String.eqb x) l); split; congruence.
Qed.

Lemma first_seen_from_NoDup (seen l : list string) :
  NoDup seen -> NoDup (seen ++ first_seen_from seen l).
Proof.
  revert seen. induction l as [|x l IH]; intros seen Hnd; simpl.
  - now rewrite app_nil_r.
  - destruct (existsb (String.eqb x) seen) eqn:E; [now apply IH|].
    apply existsb_eqb_not_In in E.
    change (x :: first_seen_from (seen ++ [x]) l)
      with ([x] ++ first_seen_from (seen ++ [x]) l)%list.
    rewrite app_assoc. apply IH.
    apply NoDup_app; [exact Hnd | repeat constructor; intros [] |].
    intros y Hy [<- | []]. contradiction.
Qed.

Lemma count_issue_cons (label : string) (p : nat * Ticket) (df : Frame) (x : string) :
  issue_type (snd p) = Some x ->
  count_issue label (p :: df) =
  if String.eqb x label then S (count_issue label df) else count_issue label df.
Proof.
  intros Hx. unfold count_issue. cbn [filter]. rewrite Hx. cbn [option_eqb].
  now destruct (String.eqb x label).
Qed.

Lemma issue_count_loop_exact (df part : Frame) (d : dict Z) :
  NoDup (index df) -> incl part df -> labelled part ->
  exists d',
    issue_count_loop df (index part) d = Ok d' /\
    (forall label, dict_get d' label =
                   counted (dict_get d label) (count_issue label part)) /\
    map fst d' = (map fst d ++ first_seen_from (map fst d) (issues_of part))%list.
Proof.
  intros Hnd. revert d. induction part as [|[l r] part IH]; intros d Hincl Hlab.
  - exists d. split; [reflexivity|]. split.
    + intros label. unfold count_issue. simpl.
      destruct (dict_get d label); simpl; [f_equal; lia | reflexivity].
    + simpl. now rewrite app_nil_r.
  - inversion Hlab as [|? ? [_ [x Hx]] Hlab']; subst. simpl in Hx.
    assert (Hincl' : incl part df) by (intros q Hq; apply Hincl; now right).
    cbn [index map fst issue_count_loop].
    rewrite (loc_In df l r issue_type Hnd (Hincl _ (or_introl eq_refl))), Hx.
    cbn [bind present].
    set (d1 := match dict_get d x with
               | Some n => dict_set d x (n + 1)%Z
               | None => dict_set d x 1%Z
               end).
    destruct (IH d1 Hincl' Hlab') as [d' [Hloop [Hget Hkeys]]].
    exists d'. split; [exact Hloop|]. split.
    + intros label. rewrite Hget.
      rewrite (count_issue_cons label (l, r) part x Hx).
      destruct (String.eqb x label) eqn:E.
      * apply String.eqb_eq in E. subst label. unfold d1.
        destruct (dict_get d x) as [n|] eqn:Ed; rewrite dict_get_set_same;
          unfold counted.
        -- f_equal. lia.
        -- destruct (count_issue x part); f_equal; lia.
      * unfold d1. destruct (dict_get d x);
          now rewrite (dict_get_set_other _ _ _ _ E).
    + rewrite Hkeys. cbn [issues_of snd]. rewrite Hx. cbn [first_seen_from].
      assert (Hk1 : map fst d1 =
                    if existsb (String.eqb x) (map fst d) then map fst d
                    else (map fst d ++ [x])%list).
      { unfold d1. destruct (dict_get d x); apply dict_set_keys. }
      rewrite Hk1. destruct (existsb (String.eqb x) (map fst d)); [reflexivity|].
      now rewrite <- app_assoc.
Qed.

Lemma issue_key_inj (a b : string) :
  "issue_count_" ++ a = "issue_count_" ++ b -> a = b.
Proof. simpl. intros H. now injection H. Qed.

Lemma dict_get_add_issue_counts_key (issue_counts : dict Z) (summary : dict value)
    (label : string) :
  NoDup (map fst issue_counts) ->
  dict_get (add_issue_counts summary issue_counts) ("issue_count_" ++ label) =
  match dict_get issue_counts label with
  | Some n => Some (VInt n)
  | None => dict_get summary ("issue_count_" ++ label)
  end.
Proof.
  revert summary. induction issue_counts as [|[issue n] rest IH];
    intros summary Hnd; [reflexivity|].
  simpl in Hnd. inversion Hnd as [|? ? Hnotin Hnd']; subst.
  cbn [add_issue_counts dict_get]. rewrite (IH _ Hnd').
  destruct (String.eqb issue label) eqn:E.
  - apply String.eqb_eq in E. subst issue.
    assert (Hnone : dict_get rest label = None).
    { apply dict_get_None. now apply existsb_eqb_not_In. }
    rewrite Hnone. apply dict_get_set_same.
  - destruct (dict_get rest label); [reflexivity|].
    apply dict_get_set_other. apply String.eqb_neq. intros H.
    apply issue_key_inj in H. apply String.eqb_neq in E. contradiction.
Qed.

Lemma add_issue_counts_keys (issue_counts : dict Z) (summary : dict value) :
  NoDup (map fst issue_counts) ->
  (forall k, In k (map fst issue_counts) ->
             existsb (String.eqb ("issue_count_" ++ k)) (map fst summary) = false) ->
  map fst (add_issue_counts summary issue_counts) =
  (map fst summary ++ map (append "issue_count_") (map fst issue_counts))%list.
Proof.
  revert summary. induction issue_counts as [|[issue n] rest IH];
    intros summary Hnd Hfree.
  - simpl. now rewrite app_nil_r.
  - simpl in Hnd. inversion Hnd as [|? ? Hnotin Hnd']; subst.
    assert (Hissue : existsb (String.eqb ("issue_count_" ++ issue))
                             (map fst summary) = false)
      by (apply Hfree; now left).
    cbn [add_issue_counts]. rewrite IH; [|exact Hnd'|].
    + rewrite dict_set_keys, Hissue. cbn [map fst].
      now rewrite <- app_assoc.
    + intros k Hk. rewrite dict_set_keys, Hissue.
      rewrite existsb_app, (Hfree k (or_intror Hk)). cbn [existsb orb].
      rewrite orb_false_r. apply String.eqb_neq. intros H.
      apply issue_key_inj in H. subst k. contradiction.
Qed.

Lemma issue_counters_of_frame (df : Frame) :
  RangeIndex df -> labelled df ->
  exists issue_counts,
    create_summary df = Ok (add_issue_counts (fixed_entries df) issue_counts) /\
    NoDup (map fst issue_counts) /\
    map fst issue_counts = first_seen (issues_of df) /\
    forall label, dict_get issue_counts label = counted None (count_issue label df).
Proof.
  intros Hri Hlab. pose proof (RangeIndex_NoDup df Hri) as Hnd.
  destruct (create_summary_closed_form df Hri Hlab) as [d [Hloop Hs]].
  destruct (issue_count_loop_exact df df [] Hnd (incl_refl df) Hlab)
    as [d' [Hloop' [Hget Hkeys]]].
  assert (d' = d) by congruence. subst d'.
  exists d. split; [exact Hs|]. simpl in Hkeys. split; [|split].
  - rewrite Hkeys. apply (first_seen_from_NoDup [] (issues_of df)). constructor.
  - exact Hkeys.
  - intros label. now rewrite Hget.
Qed.

(** X22.  The summary of a labelled frame with the index 0..n-1 holds, for
    every issue type that some row has, the entry [issue_count_<type>] with
    the number of rows of that type, and no entry for a type that no row
    has. *)
Theorem create_summary_issue_counts (df : Frame) :
  RangeIndex df -> labelled df ->
  exists summary,
    create_summary df = Ok summary /\
    forall label,
      dict_get summary ("issue_count_" ++ label) =
      if count_issue label df =? 0 then None
      else Some (VInt (Z.of_nat (count_issue label df))).
Proof.
  intros Hri Hlab.
  destruct (issue_counters_of_frame df Hri Hlab) as [d [Hs [Hnd [_ Hget]]]].
  eexists. split; [exact Hs|]. intros label.
  rewrite (dict_get_add_issue_counts_key d _ label Hnd), Hget.
  destruct (count_issue label df); reflexivity.
Qed.

Lemma create_summary_issue_counts_witness :
  exists summary,
    create_summary labelled_sample = Ok summary /\
    forall label,
      dict_get summary ("issue_count_" ++ label) =
      if count_issue label labelled_sample =? 0 then None
      else Some (VInt (Z.of_nat (count_issue label labelled_sample))).
Proof.
  apply (create_summary_issue_counts labelled_sample).
  - reflexivity.
  - repeat constructor; eexists; reflexivity.
Defined.

(** X23.  The keys of the summary, in the order [write_report] prints them,
    are the six fixed keys followed by one [issue_count_<type>] key per
    distinct issue type, in the order in which the types first appear in the
    frame. *)
Theorem create_summary_key_order (df : Frame) :
  RangeIndex df -> labelled df ->
  exists summary,
    create_summary df = Ok summary /\
    map fst summary =
    (summary_keys ++ map (append "issue_count_") (first_seen (issues_of df)))%list.
Proof.
  intros Hri Hlab.
  destruct (issue_counters_of_frame df Hri Hlab) as [d [Hs [Hnd [Hkeys _]]]].
  eexists. split; [exact Hs|].
  rewrite (add_issue_counts_keys d (fixed_entries df) Hnd).
  - now rewrite Hkeys.
  - intros k _. reflexivity.
Qed.

Lemma create_summary_key_order_witness :
  exists summary,
    create_summary labelled_sample = Ok summary /\
    map fst summary =
    (summary_keys ++
     map (append "issue_count_") (first_seen (issues_of labelled_sample)))%list.
Proof.
  apply (create_summary_key_order labelled_sample).
  - reflexivity.
  - repeat constructor; eexists; reflexivity.
Defined.

(** ** [export_files] *)

Lemma flagged_rows_loop_exact (df part : Frame) :
  NoDup (index df) -> incl part df ->
  Forall (fun p => exists f, is_flagged (snd p) = Some f) part ->
  flagged_rows_loop df (index part) = Ok (index (flagged_subset true part)).
Proof.
  intros Hnd. induction part as [|[l r] part IH]; intros Hincl Hfl; [reflexivity|].
  inversion Hfl as [|? ? [f Hf] Hfl']; subst. simpl in Hf.
  assert (Hincl' : incl part df) by (intros q Hq; apply Hincl; now right).
  cbn [index map fst flagged_rows_loop].
  rewrite (loc_In df l r is_flagged Hnd (Hincl _ (or_introl eq_refl))), Hf.
  cbn [bind present]. unfold index in IH. rewrite (IH Hincl' Hfl'). cbn [bind].
  unfold flagged_subset. cbn [filter snd]. rewrite Hf.
  destruct f; reflexivity.
Qed.

Lemma loc_rows_part (df part : Frame) :
  NoDup (index df) -> incl part df -> loc_rows df (index part) = Ok part.
Proof.
  intros Hnd. induction part as [|[l r] part IH]; intros Hincl; [reflexivity|].
  cbn [index map fst loc_rows].
  rewrite (loc_In df l r (fun r => r) Hnd (Hincl _ (or_introl eq_refl))).
  cbn [bind]. unfold index in IH. rewrite IH; [reflexivity|].
  intros q Hq. apply Hincl. now right.
Qed.

(** X24.  On a flagged frame with the index 0..n-1, [export_files] writes the
    whole frame unchanged and, as the flagged file, exactly the rows whose
    flag is true, with their labels and in their order in the frame. *)
Theorem export_files_flagged_rows (df : Frame) :
  RangeIndex df ->
  Forall (fun p => exists f, is_flagged (snd p) = Some f) df ->
  export_files df = Ok (df, flagged_subset true df).
Proof.
  intros Hri Hfl. pose proof (RangeIndex_NoDup df Hri) as Hnd.
  unfold export_files. rewrite <- Hri.
  rewrite (flagged_rows_loop_exact df df Hnd (incl_refl df) Hfl). cbn [bind].
  rewrite (loc_rows_part df (flagged_subset true df) Hnd); [reflexivity|].
  unfold flagged_subset. intros q Hq. apply filter_In in Hq. tauto.
Qed.

Lemma export_files_flagged_rows_witness :
  export_files labelled_sample = Ok (labelled_sample, flagged_subset true labelled_sample).
Proof.
  apply (export_files_flagged_rows labelled_sample).
  - reflexivity.
  - repeat constructor; eexists; reflexivity.
Defined.

(** ** The whole program *)

Lemma cleaning_len (to_datetime : cell -> option Z) (rows : list Ticket) :
  len (cleaning to_datetime rows) = len (remove_duplicates (load_data rows)).
Proof.
  unfold cleaning, clean_dates, handle_missing_values, clean_text_columns.
  now rewrite !len_update_rows.
Qed.

Lemma cleaning_RangeIndex (to_datetime : cell -> option Z) (rows : list Ticket) :
  RangeIndex (cleaning to_datetime rows) <->
  RangeIndex (remove_duplicates (load_data rows)).
Proof. unfold RangeIndex. now rewrite cleaning_index, cleaning_len. Qed.

Lemma main_RangeIndex (to_datetime : cell -> option Z) (rows : list Ticket) :
  RangeIndex (remove_duplicates (load_data rows)) ->
  exists out summary,
    main to_datetime rows = Ok (out, summary) /\
    index out = index (remove_duplicates (load_data rows)).
Proof.
  intros Hri0. apply (cleaning_RangeIndex to_datetime) in Hri0.
  pose proof (cleaning_text_columns to_datetime rows) as Htext.
  unfold main.
  rewrite (classify_issues_RangeIndex _ Hri0 Htext). cbn [bind].
  rewrite flag_tickets_RangeIndex by now apply RangeIndex_update_rows.
  cbn [bind].
  match goal with
  | |- context [create_summary ?f] => set (out := f)
  end.
  assert (Hri : RangeIndex out) by (unfold out; now do 2 apply RangeIndex_update_rows).
  assert (Hlab : labelled out).
  { unfold out, labelled, update_rows. do 2 apply Forall_map.
    apply Forall_forall. intros p _. split; eexists; reflexivity. }
  destruct (create_summary_closed_form out Hri Hlab) as [d [_ Hs]].
  rewrite Hs. cbn [bind]. do 2 eexists. split; [reflexivity|].
  unfold out. now rewrite !index_update_rows, cleaning_index.
Qed.

(** X25.  [main] has two outcomes.  When the rows left by deduplication
    still carry the labels 0..n-1 (no row was removed, or only rows at the end
    of the file), it returns the labelled frame, with those labels, and the
    summary.  In every other case it raises [KeyError]. *)
Theorem main_outcome (to_datetime : cell -> option Z) (rows : list Ticket) :
  (RangeIndex (remove_duplicates (load_data rows)) /\
   exists out summary,
     main to_datetime rows = Ok (out, summary) /\
     index out = index (remove_duplicates (load_data rows))) \/
  (~ RangeIndex (remove_duplicates (load_data rows)) /\
   main to_datetime rows = Err KeyError).
Proof.
  destruct (list_eq_dec Nat.eq_dec
              (index (remove_duplicates (load_data rows)))
              (range (len (remove_duplicates (load_data rows))))) as [Hri | Hno].
  - left. split; [exact Hri | now apply main_RangeIndex].
  - right. split; [exact Hno|]. unfold main, classify_issues.
    destruct (classify_loop_cases (cleaning to_datetime rows)
                (range (len (cleaning to_datetime rows)))
                (cleaning_text_columns to_datetime rows))
      as [[Hall [issues Hok]] | [_ Herr]].
    + exfalso. apply Hno. apply (cleaning_RangeIndex to_datetime).
      apply (classify_issues_Ok_RangeIndex _
               (assign set_issue_type (cleaning to_datetime rows) issues)).
      * apply cleaning_sorted.
      * unfold classify_issues. now rewrite Hok.
    + now rewrite Herr.
Qed.



Example main_trailing_repeat :
  forall to_datetime,
    fmap (fun r => index (fst r)) (main to_datetime trailing_repeat) = Ok [0; 1].
Proof. intros to_datetime. reflexivity. Qed.

(** ** Running the program again on its own export *)

Lemma repeated_second_row (rows : list Ticket) (a b c : Ticket) :
  rows = [a; b; c] -> ticket_eqb b a = true -> ticket_eqb c a = false ->
  index (remove_duplicates (load_data rows)) = [0; 2].
Proof.
  intros -> Hb Hc. unfold remove_duplicates, drop_duplicates, load_data.
  cbn [List.length range seq combine drop_duplicates_from existsb orb].
  rewrite Hb. cbn [orb drop_duplicates_from existsb]. rewrite Hc. reflexivity.
Qed.

Lemma index_gap_not_RangeIndex (df : Frame) :
  index df = [0; 2] -> ~ RangeIndex df.
Proof.
  intros H R. unfold RangeIndex in R.
  assert (Hlen : len df = 2).
  { unfold len. rewrite <- (length_map fst df). fold (index df). now rewrite H. }
  rewrite H, Hlen in R. discriminate R.
Qed.

Lemma main_gap (to_datetime : cell -> option Z) (rows : list Ticket) :
  ~ RangeIndex (remove_duplicates (load_data rows)) ->
  main to_datetime rows = Err KeyError.
Proof.
  intros Hno. unfold main, classify_issues.
  destruct (classify_loop_cases (cleaning to_datetime rows)
              (range (len (cleaning to_datetime rows)))
              (cleaning_text_columns to_datetime rows))
    as [[Hall [issues Hok]] | [_ Herr]].
  - exfalso. apply Hno. apply (cleaning_RangeIndex to_datetime).
    apply (classify_issues_Ok_RangeIndex _
             (assign set_issue_type (cleaning to_datetime rows) issues)).
    + apply cleaning_sorted.
    + unfold classify_issues. now rewrite Hok.
  - now rewrite Herr.
Qed.

(** C9.  A file whose first two rows differ only in the case of the
    priority ("high" and "HIGH").  The first run returns three labelled rows,
    the first two now equal.  Run again on the rows it exported, the program
    removes the second row as a duplicate, keeps the labels 0 and 2, and
    stops with [KeyError] in the classifier: the assignments of the first run
    are not reproduced. *)
Theorem rerun_on_export_stops :
  forall to_datetime,
    fmap fst (main to_datetime case_variant_rows) = Ok (first_export to_datetime) /\
    assignments (first_export to_datetime) =
      [(Some "Billing", Some true, Some "Excessive punctuation");
       (Some "Billing", Some true, Some "Excessive punctuation");
       (Some "Technical", Some true, Some "Message too short")] /\
    index (remove_duplicates
             (load_data (exported_rows (first_export to_datetime)))) = [0; 2] /\
    main to_datetime (exported_rows (first_export to_datetime)) = Err KeyError.
Proof.
  intros to_datetime.
  assert (Hidx : index (remove_duplicates
                          (load_data (exported_rows (first_export to_datetime))))
                 = [0; 2]).
  { apply (repeated_second_row _ (exported_refund to_datetime)
             (exported_refund to_datetime) (exported_bug to_datetime));
      [reflexivity | apply ticket_eqb_refl | reflexivity]. }
  split; [reflexivity|]. split; [reflexivity|]. split; [exact Hidx|].
  apply main_gap. now apply index_gap_not_RangeIndex.
Qed.
